(** * The listing bot of [bot.py]: conversation state machine

    A shallow embedding of the Telegram bot in [src/bot.py]: the three
    validators, the ten stage handlers, [cancel], and the routing that
    [ConversationHandler] performs with the handler table built in [main].

    Python values are modelled as follows.
    - A [str] is the list of its Unicode code points, so that [len],
      [strip], [isdigit] and [==] mean what they mean in Python.
    - [context.user_data] is a dictionary.  The code stores a [str] under
      every key except ['photos'], which holds a list of file ids; the
      model keeps the text entries in a [gmap] and the ['photos'] entry in
      an option next to it.
    - Every handler body is a [try] block whose [except] clause calls
      [error_handler] and ends the conversation.  The exceptions the code
      itself can raise ([KeyError] on [user_data[...]], [ValueError] in
      [int]) are modelled; calls to the Telegram API are assumed to
      succeed and are recorded as a list of actions.
    - The stage of a conversation is kept for each chat of a user, the
      session for the user: [handle_update] is one update in one chat,
      [handle_chat_update] places it among the chats of the user. *)

From stdpp Require Import gmap strings list fin_maps.
From Stdlib Require Import NArith Ascii.

Local Open Scope N_scope.

(** ** Python strings *)

Abbreviation str := (list N).

(** Source literals are written as in [bot.py]; [py] decodes the UTF-8
    bytes of a literal into code points. *)
Fixpoint utf8_decode (bs : list N) : str :=
  match bs with
  | [] => []
  | b :: r =>
    if b <? 128 then b :: utf8_decode r
    else if b <? 224 then
      match r with
      | c1 :: r1 =>
        N.lor (N.shiftl (N.land b 31) 6) (N.land c1 63) :: utf8_decode r1
      | _ => []
      end
    else if b <? 240 then
      match r with
      | c1 :: c2 :: r2 =>
        N.lor (N.shiftl (N.land b 15) 12)
          (N.lor (N.shiftl (N.land c1 63) 6) (N.land c2 63)) :: utf8_decode r2
      | _ => []
      end
    else
      match r with
      | c1 :: c2 :: c3 :: r3 =>
        N.lor (N.shiftl (N.land b 7) 18)
          (N.lor (N.shiftl (N.land c1 63) 12)
             (N.lor (N.shiftl (N.land c2 63) 6) (N.land c3 63))) :: utf8_decode r3
      | _ => []
      end
  end.

Fixpoint bytes_of (s : string) : list N :=
  match s with
  | EmptyString => []
  | String a r => N_of_ascii a :: bytes_of r
  end.

Definition py (s : string) : str := utf8_decode (bytes_of s).
Arguments py : simpl never.

(** The escape [\n]. *)
Definition NL : str := [10].

(** ''.join(parts) *)
Definition join (parts : list str) : str := concat parts.

(** [needle in hay] for strings: [needle] occurs as a contiguous slice. *)
Definition occurs_in (needle hay : str) : Prop :=
  ∃ pre post, hay = pre ++ needle ++ post.

(** The search that decides it. *)
Fixpoint starts_with (needle hay : str) : bool :=
  match needle, hay with
  | [], _ => true
  | c :: n, d :: h => (c =? d) && starts_with n h
  | _ :: _, [] => false
  end.

Fixpoint occurs_inb (needle hay : str) : bool :=
  starts_with needle hay
  || match hay with
     | [] => false
     | _ :: h => occurs_inb needle h
     end.

(** *** Character classes (CPython 3.11, Unicode 14.0) *)

(** [str.isspace] on one character; also the class [\s] of [re]. *)
Definition isspace (c : N) : bool :=
  ((9 <=? c) && (c <=? 13)) || ((28 <=? c) && (c <=? 32))
  || (c =? 133) || (c =? 160) || (c =? 5760)
  || ((8192 <=? c) && (c <=? 8202)) || (c =? 8232) || (c =? 8233)
  || (c =? 8239) || (c =? 8287) || (c =? 12288).

(** The code points of the digit zero of every decimal script (general
    category Nd); each is followed by its digits one to nine. *)
Definition decimal_zeros : list N :=
  [48; 1632; 1776; 1984; 2406; 2534; 2662; 2790; 2918; 3046; 3174; 3302;
   3430; 3558; 3664; 3792; 3872; 4160; 4240; 6112; 6160; 6470; 6608; 6784;
   6800; 6992; 7088; 7232; 7248; 42528; 43216; 43264; 43472; 43504; 43600;
   44016; 65296; 66720; 68912; 69734; 69872; 69942; 70096; 70384; 70736;
   70864; 71248; 71360; 71472; 71904; 72016; 72784; 73040; 73120; 92768;
   92864; 93008; 120782; 120792; 120802; 120812; 120822; 123200; 123632;
   125264; 130032].

(** [unicodedata.decimal(c, None)]. *)
Definition decimal_value (c : N) : option N :=
  (λ z, c - z) <$> List.find (λ z, (z <=? c) && (c <? z + 10)) decimal_zeros.

(** [str.isdecimal] on one character; also the class [\d] of [re]. *)
Definition isdecimal_char (c : N) : bool :=
  match decimal_value c with Some _ => true | None => false end.

(** Characters that are digits without being decimal: superscripts,
    subscripts, circled and dingbat digits and the like. *)
Definition other_digit_ranges : list (N * N) :=
  [(178, 179); (185, 185); (4969, 4977); (6618, 6618); (8304, 8304);
   (8308, 8313); (8320, 8329); (9312, 9320); (9332, 9340); (9352, 9360);
   (9450, 9450); (9461, 9469); (9471, 9471); (10102, 10110);
   (10112, 10120); (10122, 10130); (68160, 68163); (69216, 69224);
   (69714, 69722); (127232, 127242)].

(** [str.isdigit] on one character. *)
Definition isdigit_char (c : N) : bool :=
  isdecimal_char c
  || existsb (λ r, (fst r <=? c) && (c <=? snd r)) other_digit_ranges.

(** [s.isdigit()]: every character is a digit and there is at least one. *)
Definition isdigit (s : str) : bool :=
  match s with [] => false | _ => forallb isdigit_char s end.

(** [s.strip()] *)
Fixpoint lstrip (s : str) : str :=
  match s with
  | c :: r => if isspace c then lstrip r else s
  | [] => []
  end.

Definition rstrip (s : str) : str := rev (lstrip (rev s)).

Definition strip (s : str) : str := rstrip (lstrip s).

(** [len(s)], for strings and for lists. *)
Definition len {A} (s : list A) : N := N.of_nat (length s).

(** The outcome of evaluating a Python expression that may raise. *)
Inductive exc := KeyError (key : string) | ValueError.

Inductive outcome (A : Type) :=
| Returns (a : A)
| Raises (e : exc).
Arguments Returns {A} a.
Arguments Raises {A} e.

(** Reading the digits of [int(s)] from left to right: the value in base
    ten when every character is decimal, [ValueError] otherwise. *)
Fixpoint int_digits (acc : N) (s : str) : outcome N :=
  match s with
  | [] => Returns acc
  | c :: r =>
    match decimal_value c with
    | Some d => int_digits (10 * acc + d) r
    | None => Raises ValueError
    end
  end.

(** [sys.get_int_max_str_digits()], as CPython sets it. *)
Definition int_max_str_digits : N := 4300.

(** [int(s)] for a string that passed [isdigit]: [ValueError] when the
    string has more digits than the limit, leading zeros counted, or a
    digit that is not decimal. *)
Definition int (s : str) : outcome N :=
  if int_max_str_digits <? len s then Raises ValueError else int_digits 0 s.

(** ** Validators *)

(** The character class [[\d\s\-\(\)]]. *)
Definition phone_char (c : N) : bool :=
  isdecimal_char c || isspace c || (c =? 45) || (c =? 40) || (c =? 41).

(** [re.match(r'^\+?[\d\s\-\(\)]{7,15}$', phone)]: an optional plus sign,
    then seven to fifteen characters of the class up to the end of the
    string; [$] also matches just before a final newline. *)
Definition validate_phone (phone : str) : bool :=
  let body := match phone with 43 :: r => r | _ => phone end in
  forallb phone_char body
  && (((7 <=? len body) && (len body <=? 15))
      || ((len body =? 16) && bool_decide (last body = Some 10))).

(** [price.isdigit() and int(price) > 0] *)
Definition validate_price (price : str) : outcome bool :=
  if isdigit price then
    match int price with
    | Returns n => Returns (0 <? n)
    | Raises e => Raises e
    end
  else Returns false.

(** [min_len <= len(text.strip()) <= max_len].  The signature is
    [validate_text(text, min_len=2, max_len=200)]: a call that passes the
    text alone gets [default_min_len] and [default_max_len]. *)
Definition validate_text (text : str) (min_len max_len : N) : bool :=
  (min_len <=? len (strip text)) && (len (strip text) <=? max_len).

Definition default_min_len : N := 2.
Definition default_max_len : N := 200.

(** ** Conversation states, keyboards and outgoing actions *)

(** The stage numbers [range(11)]. *)
Inductive State :=
| START | CHOOSE_CATEGORY | GET_ITEM_NAME | GET_PHOTOS | GET_DESCRIPTION
| GET_PRICE | GET_CITY | GET_DELIVERY | GET_PICKUP_ADDRESS | GET_CONTACTS
| CONFIRM.

#[global] Instance State_eq_dec : EqDecision State.
Proof. solve_decision. Defined.

(** What a handler returns: a stage, or [ConversationHandler.END]. *)
Inductive Ret := To (s : State) | END.

Inductive Markup :=
| ReplyKeyboardMarkup (buttons : list (list str))
| ReplyKeyboardRemove.

(** The button texts the handlers compare the incoming text with. *)
Definition BACK : str := py "⬅️ Назад".
Definition CANCEL : str := py "❌ Отмена".
Definition NEXT : str := py "📤 Далее".
Definition NO_INFO : str := py "❌ Нет информации".
Definition PICKUP : str := py "🚗 Самовывоз".
Definition DELIVERY : str := py "🏪 Доставка".
Definition SUBMIT : str := py "✅ Отправить заявку".
Definition CANCEL_CONFIRM : str := py "❌ Отменить".

Definition get_category_markup : Markup :=
  ReplyKeyboardMarkup
    [[py "🔮 Предметы интерьера"; py "💰 Монеты/купюры"];
     [py "⚔️ Предметы войны"; py "🖼 Искусство"];
     [py "🍽 Посуда"; py "📦 Другое"]].

Definition get_back_cancel_markup : Markup :=
  ReplyKeyboardMarkup [[BACK; CANCEL]].

Definition get_photos_markup : Markup :=
  ReplyKeyboardMarkup [[NEXT]; [BACK; CANCEL]].

Definition get_description_markup : Markup :=
  ReplyKeyboardMarkup [[NO_INFO]; [BACK; CANCEL]].

Definition get_delivery_markup : Markup :=
  ReplyKeyboardMarkup [[PICKUP; DELIVERY]; [BACK; CANCEL]].

Definition get_confirm_markup : Markup :=
  ReplyKeyboardMarkup [[SUBMIT]; [CANCEL_CONFIRM]].

Definition get_start_markup : Markup :=
  ReplyKeyboardMarkup [[py "/start"]].

(** The chats the bot writes to: the administrator's, from the
    environment, and the one the update came from. *)
Inductive Chat := ADMIN_CHAT_ID | effective_chat.

(** The calls to the Telegram API, in the order they are made. *)
Inductive Action :=
| reply_text (text : str) (reply_markup : option Markup)
| send_message (chat_id : Chat) (text : str) (reply_markup : option Markup)
| send_media_group (chat_id : Chat) (media : list str).

(** ** The session: [context.user_data] *)

Record UserData := mkUserData {
  fields : gmap string str;
  photos : option (list str)
}.

(** [user_data.clear()] *)
Definition clear : UserData := {| fields := ∅; photos := None |}.

(** [user_data[key] = value] for a text key. *)
Definition setitem (key : string) (value : str) (ud : UserData) : UserData :=
  {| fields := <[key := value]> (fields ud); photos := photos ud |}.

(** [user_data['photos'] = l] *)
Definition set_photos (l : list str) (ud : UserData) : UserData :=
  {| fields := fields ud; photos := Some l |}.

(** [user_data.pop('photos', None)] *)
Definition pop_photos (ud : UserData) : UserData :=
  {| fields := fields ud; photos := None |}.

(** [user_data.get(key)] *)
Definition get (ud : UserData) (key : string) : option str := fields ud !! key.

(** [user_data[key]], which raises [KeyError] on a missing key. *)
Definition getitem (ud : UserData) (key : string) : outcome str :=
  match fields ud !! key with
  | Some v => Returns v
  | None => Raises (KeyError key)
  end.

(** [key in user_data], for every key the code uses. *)
Definition has_key (ud : UserData) (key : string) : bool :=
  if bool_decide (key = "photos"%string)
  then bool_decide (photos ud ≠ None)
  else bool_decide (fields ud !! key ≠ None).

(** Sequencing of expressions that may raise. *)
#[global] Instance outcome_bind : MBind outcome := λ A B f x,
  match x with
  | Returns a => f a
  | Raises e => Raises e
  end.

(** ** Incoming updates *)

Record User := mkUser {
  first_name : str;
  full_name : str;
  username : option str
}.

(** The parts of an update the bot reads.  [command] is the name of the
    bot command the message starts with, if Telegram marked one;
    [photo] lists the file ids of the sizes of an attached photo. *)
Record Update := mkUpdate {
  text : option str;
  command : option str;
  photo : list str;
  effective_user : User
}.

(** ** Handlers *)

Record Result := mkResult {
  ret : Ret;
  data : UserData;
  out : list Action
}.

(** The message [error_handler] sends. *)
Definition error_handler : list Action :=
  [send_message effective_chat
     (py "⚠️ Произошла ошибка. Пожалуйста, начните заново командой /start")
     (Some get_start_markup)].

(** [try: body except Exception: error_handler; return END], where [ud]
    is the session as the body left it when it raised. *)
Definition try_except (ud : UserData) (body : outcome Result) : Result :=
  match body with
  | Returns r => r
  | Raises _ => mkResult END ud error_handler
  end.

Definition cancel (ud : UserData) : Result :=
  mkResult END clear
    [reply_text
       (py "❌ Заявка отменена. Все данные удалены." ++ NL ++ NL ++
        py "Для новой заявки нажмите /start")
       (Some get_start_markup)].

Definition start (user : User) (ud : UserData) : Result :=
  mkResult (To CHOOSE_CATEGORY) clear
    [reply_text
       (py "👋 Здравствуйте, " ++ first_name user ++ py "!" ++ NL ++
        py "Выберите категорию товара:")
       (Some get_category_markup)].

Definition handle_category (text : str) (ud : UserData) : Result :=
  if bool_decide (text = CANCEL) then cancel ud
  else
    mkResult (To GET_ITEM_NAME) (setitem "category" text ud)
      [reply_text (py "✏️ Введите название товара (от 2 до 100 символов):")
         (Some get_back_cancel_markup)].

(** The sender line stored under ['user_name']. *)
Definition user_name_of (user : User) : str :=
  match username user with
  | Some (c :: n) => full_name user ++ py " (@" ++ (c :: n) ++ py ")"
  | _ => full_name user
  end.

Definition handle_item_name (text : str) (user : User) (ud : UserData) : Result :=
  if bool_decide (text = BACK) then
    mkResult (To CHOOSE_CATEGORY) ud
      [reply_text (py "Выберите категорию товара:") (Some get_category_markup)]
  else if bool_decide (text = CANCEL) then cancel ud
  else if negb (validate_text text default_min_len default_max_len) then
    mkResult (To GET_ITEM_NAME) ud
      [reply_text
         (py "❌ Название должно быть от 2 до 100 символов. Попробуйте еще раз:")
         (Some get_back_cancel_markup)]
  else
    mkResult (To GET_PHOTOS)
      (set_photos []
         (setitem "user_name" (user_name_of user) (setitem "item_name" text ud)))
      [reply_text
         (py "📸 Пришлите фото товара (1-10 фото). Когда закончите, нажмите 📤 Далее")
         (Some get_photos_markup)].

(** [str(n)] for a non-negative integer. *)
Fixpoint digits_of (d : Decimal.uint) : str :=
  match d with
  | Decimal.Nil => []
  | Decimal.D0 r => 48 :: digits_of r
  | Decimal.D1 r => 49 :: digits_of r
  | Decimal.D2 r => 50 :: digits_of r
  | Decimal.D3 r => 51 :: digits_of r
  | Decimal.D4 r => 52 :: digits_of r
  | Decimal.D5 r => 53 :: digits_of r
  | Decimal.D6 r => 54 :: digits_of r
  | Decimal.D7 r => 55 :: digits_of r
  | Decimal.D8 r => 56 :: digits_of r
  | Decimal.D9 r => 57 :: digits_of r
  end.

Definition str_of_int (n : N) : str := digits_of (N.to_uint n).

(** [handle_photos] is registered for photos and for any text, so it
    reads the update itself.  A new file id is appended before the count
    is compared with the limit. *)
Definition handle_photos (u : Update) (ud : UserData) : Result :=
  match text u with
  | Some (c :: t) =>
    let msg := c :: t in
    if bool_decide (msg = BACK) then
      mkResult (To GET_ITEM_NAME) (pop_photos ud)
        [reply_text (py "✏️ Введите название товара:") (Some get_back_cancel_markup)]
    else if bool_decide (msg = CANCEL) then cancel (pop_photos ud)
    else if bool_decide (msg = NEXT) then
      if len (default [] (photos ud)) <? 1 then
        mkResult (To GET_PHOTOS) ud
          [reply_text (py "❌ Нужно отправить хотя бы 1 фото!") None]
      else
        mkResult (To GET_DESCRIPTION) ud
          [reply_text
             (py "📝 Опишите товар (год, материал, особенности) или нажмите 'Нет информации'")
             (Some get_description_markup)]
    else mkResult (To GET_PHOTOS) ud []
  | _ =>
    match last (photo u) with
    | Some file_id =>
      let ud1 := match photos ud with None => set_photos [] ud | Some _ => ud end in
      let stored := default [] (photos ud1) in
      if bool_decide (file_id ∉ stored) then
        let stored' := stored ++ [file_id] in
        let count := len stored' in
        mkResult (To GET_PHOTOS) (set_photos stored' ud1)
          [if count <=? 10 then
             reply_text
               (py "📸 Получено фото " ++ str_of_int count ++
                py "/10. Отправьте еще или нажмите 📤 Далее")
               (Some get_photos_markup)
           else
             reply_text
               (py "❌ Можно загрузить не более 10 фото. Нажмите 📤 Далее для продолжения")
               (Some get_photos_markup)]
      else mkResult (To GET_PHOTOS) ud1 []
    | None => mkResult (To GET_PHOTOS) ud []
    end
  end.

Definition handle_description (text : str) (ud : UserData) : Result :=
  if bool_decide (text = BACK) then
    mkResult (To GET_PHOTOS) ud
      [reply_text
         (py "📸 Пришлите фото товара (1-10 фото). Когда закончите, нажмите 📤 Далее")
         (Some get_photos_markup)]
  else if bool_decide (text = CANCEL) then cancel ud
  else if bool_decide (text = NO_INFO) then
    mkResult (To GET_PRICE) (setitem "description" (py "Нет информации") ud)
      [reply_text (py "💵 Укажите цену в рублях (только цифры, больше 0):")
         (Some get_back_cancel_markup)]
  else if negb (validate_text text 2 500) then
    mkResult (To GET_DESCRIPTION) ud
      [reply_text
         (py "❌ Описание должно быть от 2 до 500 символов. Попробуйте еще раз:")
         (Some get_description_markup)]
  else
    mkResult (To GET_PRICE) (setitem "description" text ud)
      [reply_text (py "💵 Укажите цену в рублях (только цифры, больше 0):")
         (Some get_back_cancel_markup)].

Definition handle_price (text : str) (ud : UserData) : Result :=
  if bool_decide (text = BACK) then
    mkResult (To GET_DESCRIPTION) ud
      [reply_text
         (py "📝 Опишите товар (год, материал, особенности) или нажмите 'Нет информации'")
         (Some get_description_markup)]
  else if bool_decide (text = CANCEL) then cancel ud
  else
    try_except ud (
      valid ← validate_price text;
      Returns (
        if negb valid then
          mkResult (To GET_PRICE) ud
            [reply_text
               (py "❌ Цена должна содержать только цифры (больше 0). Попробуйте еще раз:")
               (Some get_back_cancel_markup)]
        else
          mkResult (To GET_CITY) (setitem "price" text ud)
            [reply_text (py "🏙 Укажите ваш город:") (Some get_back_cancel_markup)])).

Definition handle_city (text : str) (ud : UserData) : Result :=
  if bool_decide (text = BACK) then
    mkResult (To GET_PRICE) ud
      [reply_text (py "💵 Укажите цену в рублях (только цифры, больше 0):")
         (Some get_back_cancel_markup)]
  else if bool_decide (text = CANCEL) then cancel ud
  else if negb (validate_text text 2 50) then
    mkResult (To GET_CITY) ud
      [reply_text
         (py "❌ Название города должно быть от 2 до 50 символов. Попробуйте еще раз:")
         (Some get_back_cancel_markup)]
  else
    mkResult (To GET_DELIVERY) (setitem "city" text ud)
      [reply_text (py "🚚 Выберите способ передачи товара:")
         (Some get_delivery_markup)].

Definition handle_delivery (text : str) (ud : UserData) : Result :=
  if bool_decide (text = BACK) then
    mkResult (To GET_CITY) ud
      [reply_text (py "🏙 Укажите ваш город:") (Some get_back_cancel_markup)]
  else if bool_decide (text = CANCEL) then cancel ud
  else if negb (bool_decide (text ∈ [PICKUP; DELIVERY])) then
    mkResult (To GET_DELIVERY) ud
      [reply_text (py "Пожалуйста, выберите вариант из предложенных:")
         (Some get_delivery_markup)]
  else if bool_decide (text = PICKUP) then
    mkResult (To GET_PICKUP_ADDRESS) (setitem "delivery" text ud)
      [reply_text (py "🏠 Укажите адрес самовывоза:") (Some get_back_cancel_markup)]
  else
    mkResult (To GET_CONTACTS) (setitem "delivery" text ud)
      [reply_text (py "📞 Укажите телефон для связи (формат: +7XXX...):")
         (Some get_back_cancel_markup)].

Definition handle_pickup_address (text : str) (ud : UserData) : Result :=
  if bool_decide (text = BACK) then
    mkResult (To GET_DELIVERY) ud
      [reply_text (py "🚚 Выберите способ передачи товара:")
         (Some get_delivery_markup)]
  else if bool_decide (text = CANCEL) then cancel ud
  else if negb (validate_text text 5 200) then
    mkResult (To GET_PICKUP_ADDRESS) ud
      [reply_text
         (py "❌ Адрес должен быть от 5 до 200 символов. Попробуйте еще раз:")
         (Some get_back_cancel_markup)]
  else
    mkResult (To GET_CONTACTS) (setitem "pickup_address" text ud)
      [reply_text (py "📞 Укажите телефон для связи (формат: +7XXX...):")
         (Some get_back_cancel_markup)].

(** The optional pickup line: [if user_data.get('pickup_address'): ...]. *)
Definition pickup_line (ud : UserData) : list str :=
  match get ud "pickup_address" with
  | Some (c :: a) => [NL ++ py "🏠 *Адрес самовывоза:* " ++ (c :: a)]
  | _ => []
  end.

Definition handle_contacts (text : str) (ud : UserData) : Result :=
  if bool_decide (text = BACK) then
    if bool_decide (get ud "delivery" = Some PICKUP) then
      mkResult (To GET_PICKUP_ADDRESS) ud
        [reply_text (py "🏠 Укажите адрес самовывоза:") (Some get_back_cancel_markup)]
    else
      mkResult (To GET_DELIVERY) ud
        [reply_text (py "🚚 Выберите способ передачи товара:")
           (Some get_delivery_markup)]
  else if bool_decide (text = CANCEL) then cancel ud
  else if negb (validate_phone text) then
    mkResult (To GET_CONTACTS) ud
      [reply_text
         (py "❌ Введите корректный номер телефона (например: +79161234567):")
         (Some get_back_cancel_markup)]
  else
    let ud := setitem "contacts" text ud in
    try_except ud (
      user_name ← getitem ud "user_name";
      item_name ← getitem ud "item_name";
      category ← getitem ud "category";
      price ← getitem ud "price";
      city ← getitem ud "city";
      delivery ← getitem ud "delivery";
      contacts ← getitem ud "contacts";
      let summary :=
        [py "📋 *Проверьте заявку:*" ++ NL ++ NL;
         py "👤 *Отправитель:* " ++ user_name ++ NL;
         py "📌 *Товар:* " ++ item_name ++ NL;
         py "📦 *Категория:* " ++ category ++ NL;
         py "📝 *Описание:* " ++
           default (py "Нет информации") (get ud "description") ++ NL;
         py "💰 *Цена:* " ++ price ++ py " руб." ++ NL;
         py "🏙 *Город:* " ++ city ++ NL;
         py "🚚 *Доставка:* " ++ delivery]
        ++ pickup_line ud
        ++ [NL ++ py "📞 *Контакты:* " ++ contacts ++ NL ++ NL]
        ++ [py "Нажмите *✅ Отправить заявку* для подтверждения"] in
      Returns (mkResult (To CONFIRM) ud
                 [reply_text (join summary) (Some get_confirm_markup)])).

Definition required_fields : list string :=
  ["item_name"; "category"; "price"; "city"; "delivery"; "contacts"]%string.

(** [[field for field in required_fields if field not in user_data]] *)
Definition missing_fields (ud : UserData) : list string :=
  List.filter (λ field, negb (has_key ud field)) required_fields.

(** The text sent to the administrator. *)
Definition admin_message (ud : UserData) : outcome str :=
  user_name ← getitem ud "user_name";
  item_name ← getitem ud "item_name";
  category ← getitem ud "category";
  price ← getitem ud "price";
  city ← getitem ud "city";
  delivery ← getitem ud "delivery";
  contacts ← getitem ud "contacts";
  Returns (join (
    [py "🛎 *Новая заявка!*" ++ NL ++ NL;
     py "👤 *Пользователь:* " ++ user_name ++ NL;
     py "📌 *Товар:* " ++ item_name ++ NL;
     py "📦 *Категория:* " ++ category ++ NL;
     py "📝 *Описание:* " ++
       default (py "Нет информации") (get ud "description") ++ NL;
     py "💰 *Цена:* " ++ price ++ py " руб." ++ NL;
     py "🏙 *Город:* " ++ city ++ NL;
     py "🚚 *Доставка:* " ++ delivery]
    ++ pickup_line ud
    ++ [NL ++ py "📞 *Контакты:* " ++ contacts])).

(** The photos sent along: [user_data['photos'][:10]], when the key is
    there and the list is not empty. *)
Definition admin_media (ud : UserData) : list Action :=
  match photos ud with
  | Some (p :: ps) => [send_media_group ADMIN_CHAT_ID (take 10 (p :: ps))]
  | _ => []
  end.

Definition confirm_application (text : str) (ud : UserData) : Result :=
  if bool_decide (text = BACK) then
    mkResult (To GET_CONTACTS) ud
      [reply_text (py "📞 Укажите телефон для связи:") (Some get_back_cancel_markup)]
  else if bool_decide (text = CANCEL_CONFIRM) then cancel ud
  else if bool_decide (text ≠ SUBMIT) then
    mkResult (To CONFIRM) ud
      [reply_text (py "Пожалуйста, используйте кнопки для подтверждения")
         (Some get_confirm_markup)]
  else
    match missing_fields ud with
    | _ :: _ =>
      mkResult END ud
        [reply_text
           (py "❌ Ошибка: отсутствуют некоторые данные. Пожалуйста, начните заново.")
           (Some get_start_markup)]
    | [] =>
      try_except ud (
        message ← admin_message ud;
        Returns (mkResult END clear (
          [send_message ADMIN_CHAT_ID message None]
          ++ admin_media ud
          ++ [reply_text
                (py "✅ Заявка отправлена! Мы свяжемся с вами в течение часа." ++
                 NL ++ NL ++ py "Для новой заявки нажмите /start")
                (Some ReplyKeyboardRemove)])))
    end.

(** ** Routing: the [ConversationHandler] built in [main]

    One conversation: [conversation] is the stage the handler keeps for
    one chat of the user, [None] when there is none, and [user_data] is
    the user's session the handlers of that chat work on. *)

Record Bot := mkBot {
  conversation : option State;
  user_data : UserData
}.

Definition initial : Bot := mkBot None clear.

(** [filters.TEXT], [filters.COMMAND], [filters.PHOTO]. *)
Definition filters_TEXT (u : Update) : bool :=
  match text u with Some (_ :: _) => true | _ => false end.

Definition filters_COMMAND (u : Update) : bool :=
  match command u with Some _ => true | None => false end.

Definition filters_PHOTO (u : Update) : bool :=
  match photo u with _ :: _ => true | [] => false end.

(** [CommandHandler(name, ...)] *)
Definition is_command (name : string) (u : Update) : bool :=
  bool_decide (command u = Some (py name)).

(** [filters.Regex('^(❌ Отмена|❌ Отменить)$')]: a search in the text,
    where [$] also matches before a final newline. *)
Definition filters_Regex_cancel (u : Update) : bool :=
  match text u with
  | Some t =>
    bool_decide (t ∈ [CANCEL; CANCEL_CONFIRM; CANCEL ++ NL; CANCEL_CONFIRM ++ NL])
  | None => false
  end.

Inductive Callback :=
| cb_start
| cb_state (s : State)
| cb_cancel.

(** The filter of the one handler registered for a stage; [START] has no
    entry in [states]. *)
Definition state_filter (s : State) (u : Update) : bool :=
  match s with
  | START => false
  | GET_PHOTOS => filters_PHOTO u || filters_TEXT u
  | _ => filters_TEXT u && negb (filters_COMMAND u)
  end.

(** The handler that takes an update: entry points first (also inside a
    conversation, since [allow_reentry=True]), then the handler of the
    current stage, then the fallbacks; [None] when nothing matches and the
    update is dropped. *)
Definition select (conv : option State) (u : Update) : option Callback :=
  if is_command "start" u then Some cb_start
  else
    match conv with
    | None => None
    | Some s =>
      if state_filter s u then Some (cb_state s)
      else if is_command "cancel" u then Some cb_cancel
      else if filters_Regex_cancel u then Some cb_cancel
      else None
    end.

(** The text of a message that passed [filters.TEXT]. *)
Definition message_text (u : Update) : str := default [] (text u).

Definition run (cb : Callback) (u : Update) (ud : UserData) : Result :=
  match cb with
  | cb_start => start (effective_user u) ud
  | cb_cancel => cancel ud
  | cb_state s =>
    let t := message_text u in
    match s with
    | START => mkResult (To START) ud []
    | CHOOSE_CATEGORY => handle_category t ud
    | GET_ITEM_NAME => handle_item_name t (effective_user u) ud
    | GET_PHOTOS => handle_photos u ud
    | GET_DESCRIPTION => handle_description t ud
    | GET_PRICE => handle_price t ud
    | GET_CITY => handle_city t ud
    | GET_DELIVERY => handle_delivery t ud
    | GET_PICKUP_ADDRESS => handle_pickup_address t ud
    | GET_CONTACTS => handle_contacts t ud
    | CONFIRM => confirm_application t ud
    end
  end.

(** One update: route it, run the handler, store the stage it returns. *)
Definition handle_update (b : Bot) (u : Update) : Bot * list Action :=
  match select (conversation b) u with
  | None => (b, [])
  | Some cb =>
    let r := run cb u (user_data b) in
    (mkBot (match ret r with To s => Some s | END => None end) (data r), out r)
  end.

(** A run of updates, with everything the bot sent. *)
Fixpoint handle_updates (b : Bot) (us : list Update) : Bot * list Action :=
  match us with
  | [] => (b, [])
  | u :: rest =>
    let '(b1, o1) := handle_update b u in
    let '(b2, o2) := handle_updates b1 rest in
    (b2, o1 ++ o2)
  end.

(** ** Several chats

    [main] builds the handler with [per_user=True] and [per_chat=True]:
    the library keeps a stage for every pair of a chat and a user, while
    [context.user_data] belongs to the user alone.  For one user this is
    a stage for each chat and one session under all of them. *)
Record Chats := mkChats {
  stages : gmap N State;
  session : UserData
}.

Definition no_chats : Chats := mkChats ∅ clear.

(** The conversation of one chat, on the user's session. *)
Definition view (chat : N) (cs : Chats) : Bot :=
  mkBot (stages cs !! chat) (session cs).

(** An update that arrives in a chat: the stage of that chat is read and
    stored, or dropped at [END]; the session is the one of the user. *)
Definition handle_chat_update (cs : Chats) (chat : N) (u : Update) :
    Chats * list Action :=
  let '(b, o) := handle_update (view chat cs) u in
  (mkChats
     (match conversation b with
      | Some s => <[chat := s]> (stages cs)
      | None => delete chat (stages cs)
      end)
     (user_data b),
   o).

Fixpoint handle_chat_updates (cs : Chats) (us : list (N * Update)) :
    Chats * list Action :=
  match us with
  | [] => (cs, [])
  | (chat, u) :: rest =>
    let '(cs1, o1) := handle_chat_update cs chat u in
    let '(cs2, o2) := handle_chat_updates cs1 rest in
    (cs2, o1 ++ o2)
  end.

(** The sessions the bot can be in: the conversation of a chat, on the
    user's session, after any updates in any chats. *)
Definition reachable (b : Bot) : Prop :=
  ∃ us chat, view chat (handle_chat_updates no_chats us).1 = b.

(** The sessions of a user who writes to the bot in one chat only. *)
Definition reachable_alone (b : Bot) : Prop :=
  ∃ us, (handle_updates initial us).1 = b.

(** The updates of a run, all in one chat. *)
Definition in_chat (chat : N) (us : list Update) : list (N * Update) :=
  (λ u, (chat, u)) <$> us.

(** ** Vocabulary of the statements *)

(** A plain text message, a photo message and a bot command. *)
Definition text_msg (user : User) (t : str) : Update :=
  mkUpdate (Some t) None [] user.

Definition photo_msg (user : User) (file_id : str) : Update :=
  mkUpdate None None [file_id] user.

Definition command_msg (user : User) (name : string) : Update :=
  mkUpdate (Some (py "/" ++ py name)) (Some (py name)) [] user.

(** Reading a decimal string: every character is a decimal digit, and
    the number it writes in base ten. *)
Definition all_decimal (s : str) : Prop :=
  Forall (λ c, is_Some (decimal_value c)) s.

Definition decimal_number (s : str) : N :=
  fold_left (λ acc c, 10 * acc + default 0 (decimal_value c)) s 0.

(** The text each stage treats as its cancel button. *)
Definition cancel_token (s : State) : str :=
  match s with
  | CONFIRM => CANCEL_CONFIRM
  | _ => CANCEL
  end.

(** The stage a stage goes back to; the two first have none. *)
Definition back_target (s : State) (ud : UserData) : option State :=
  match s with
  | START | CHOOSE_CATEGORY => None
  | GET_ITEM_NAME => Some CHOOSE_CATEGORY
  | GET_PHOTOS => Some GET_ITEM_NAME
  | GET_DESCRIPTION => Some GET_PHOTOS
  | GET_PRICE => Some GET_DESCRIPTION
  | GET_CITY => Some GET_PRICE
  | GET_DELIVERY => Some GET_CITY
  | GET_PICKUP_ADDRESS => Some GET_DELIVERY
  | GET_CONTACTS =>
    if bool_decide (get ud "delivery" = Some PICKUP)
    then Some GET_PICKUP_ADDRESS else Some GET_DELIVERY
  | CONFIRM => Some GET_CONTACTS
  end.

(** The reply of each stage with a validator to an input it rejects. *)
Definition error_notice (s : State) : option Action :=
  match s with
  | GET_ITEM_NAME =>
    Some (reply_text
            (py "❌ Название должно быть от 2 до 100 символов. Попробуйте еще раз:")
            (Some get_back_cancel_markup))
  | GET_DESCRIPTION =>
    Some (reply_text
            (py "❌ Описание должно быть от 2 до 500 символов. Попробуйте еще раз:")
            (Some get_description_markup))
  | GET_PRICE =>
    Some (reply_text
            (py "❌ Цена должна содержать только цифры (больше 0). Попробуйте еще раз:")
            (Some get_back_cancel_markup))
  | GET_CITY =>
    Some (reply_text
            (py "❌ Название города должно быть от 2 до 50 символов. Попробуйте еще раз:")
            (Some get_back_cancel_markup))
  | GET_PICKUP_ADDRESS =>
    Some (reply_text
            (py "❌ Адрес должен быть от 5 до 200 символов. Попробуйте еще раз:")
            (Some get_back_cancel_markup))
  | GET_CONTACTS =>
    Some (reply_text
            (py "❌ Введите корректный номер телефона (например: +79161234567):")
            (Some get_back_cancel_markup))
  | _ => None
  end.

(** The validator call each stage makes on its input, where it has one. *)
Definition validator (s : State) (t : str) : option (outcome bool) :=
  match s with
  | GET_ITEM_NAME => Some (Returns (validate_text t default_min_len default_max_len))
  | GET_DESCRIPTION => Some (Returns (validate_text t 2 500))
  | GET_PRICE => Some (validate_price t)
  | GET_CITY => Some (Returns (validate_text t 2 50))
  | GET_PICKUP_ADDRESS => Some (Returns (validate_text t 5 200))
  | GET_CONTACTS => Some (Returns (validate_phone t))
  | _ => None
  end.

(** The value stored under a key, whichever kind it is. *)
Definition entry (ud : UserData) (key : string) : option (str + list str) :=
  if bool_decide (key = "photos"%string)
  then inr <$> photos ud
  else inl <$> fields ud !! key.

(** The keys a stage may change. *)
Definition writes (s : State) : list string :=
  match s with
  | START | CONFIRM => []
  | CHOOSE_CATEGORY => ["category"]
  | GET_ITEM_NAME => ["item_name"; "user_name"; "photos"]
  | GET_PHOTOS => ["photos"]
  | GET_DESCRIPTION => ["description"]
  | GET_PRICE => ["price"]
  | GET_CITY => ["city"]
  | GET_DELIVERY => ["delivery"]
  | GET_PICKUP_ADDRESS => ["pickup_address"]
  | GET_CONTACTS => ["contacts"]
  end%string.

(** The inputs a stage accepts as a value for its field. *)
Definition accepted (s : State) (u : Update) : bool :=
  let t := message_text u in
  match s with
  | START | CONFIRM => false
  | CHOOSE_CATEGORY => true
  | GET_ITEM_NAME => validate_text t default_min_len default_max_len
  | GET_PHOTOS => negb (filters_TEXT u) && filters_PHOTO u
  | GET_DESCRIPTION => bool_decide (t = NO_INFO) || validate_text t 2 500
  | GET_PRICE => match validate_price t with Returns true => true | _ => false end
  | GET_CITY => validate_text t 2 50
  | GET_DELIVERY => bool_decide (t ∈ [PICKUP; DELIVERY])
  | GET_PICKUP_ADDRESS => validate_text t 5 200
  | GET_CONTACTS => validate_phone t
  end.

(** What the administrator receives for one listing: the text, and the
    photos of the media group that follows it, if one does. *)
Record Submission := mkSubmission {
  summaryText : str;
  imageRefs : list str;
  recipientId : Chat
}.

Fixpoint dispatched (out : list Action) : list Submission :=
  match out with
  | [] => []
  | send_message ADMIN_CHAT_ID t _ :: rest =>
    match rest with
    | send_media_group ADMIN_CHAT_ID media :: rest' =>
      mkSubmission t media ADMIN_CHAT_ID :: dispatched rest'
    | _ => mkSubmission t [] ADMIN_CHAT_ID :: dispatched rest
    end
  | _ :: rest => dispatched rest
  end.

(** *** Sample sessions *)

Definition ann : User := mkUser (py "Ann") (py "Ann Lee") (Some (py "ann")).

(** From [/start] to the photo stage. *)
Definition to_photos : list Update :=
  [command_msg ann "start";
   text_msg ann (py "💰 Монеты/купюры");
   text_msg ann (py "Old Ruble")].

(** From the photo stage, with one photo, to the delivery choice. *)
Definition to_delivery : list Update :=
  to_photos ++
  [photo_msg ann (py "A");
   text_msg ann NEXT;
   text_msg ann NO_INFO;
   text_msg ann (py "500");
   text_msg ann (py "Town")].

(** A whole listing with pickup, up to the confirmation screen. *)
Definition to_confirm : list Update :=
  to_delivery ++
  [text_msg ann PICKUP;
   text_msg ann (py "1 Main St");
   text_msg ann (py "+79161234567")].

Definition eleven_photos : list str :=
  [py "A"; py "B"; py "C"; py "D"; py "E"; py "F"; py "G"; py "H"; py "I";
   py "J"; py "K"].

(** Sessions reached by the sample runs. *)
Definition at_category : Bot :=
  (handle_updates initial [command_msg ann "start"]).1.

Definition at_item_name : Bot :=
  (handle_updates initial
     [command_msg ann "start"; text_msg ann (py "💰 Монеты/купюры")]).1.

Definition at_photos : Bot := (handle_updates initial to_photos).1.

Definition at_price : Bot :=
  (handle_updates initial
     (to_photos ++
      [photo_msg ann (py "A"); text_msg ann NEXT; text_msg ann NO_INFO])).1.

Definition at_confirm : Bot := (handle_updates initial to_confirm).1.

(** A name of 101 letters. *)
Definition long_name : str := replicate 101 97.


(** Back at the pickup address stage, after an address was given. *)
Definition at_pickup_again : Bot :=
  (handle_updates initial
     (to_delivery ++
      [text_msg ann PICKUP; text_msg ann (py "1 Main St"); text_msg ann BACK])).1.

(** From the pickup address stage back to the delivery choice, and on to
    a submission with delivery. *)
Definition then_delivery : list Update :=
  [text_msg ann BACK;
   text_msg ann DELIVERY;
   text_msg ann (py "+79161234567");
   text_msg ann SUBMIT].

(** The photo stage with one photo stored. *)
Definition with_photo : Bot :=
  (handle_updates initial (to_photos ++ [photo_msg ann (py "A")])).1.



(** A sender line is stored whenever an item name is. *)
Definition named (ud : UserData) : Prop :=
  is_Some (get ud "item_name") → is_Some (get ud "user_name").

(** ** The transitions of the stage handlers

    [step s ud r ud'] lists what the handler of stage [s] can return, and
    the session it leaves, from a session [ud]. *)
Inductive step : State → UserData → Ret → UserData → Prop :=
| step_stay s ud : step s ud (To s) ud
| step_cancel s ud : step s ud END clear
| step_failed s ud : step s ud END ud
| step_back s ud target :
    back_target s ud = Some target →
    step s ud (To target) (if bool_decide (s = GET_PHOTOS) then pop_photos ud else ud)
| step_category t ud :
    t ≠ CANCEL →
    step CHOOSE_CATEGORY ud (To GET_ITEM_NAME) (setitem "category" t ud)
| step_item_name t sender ud :
    validate_text t default_min_len default_max_len = true →
    step GET_ITEM_NAME ud (To GET_PHOTOS)
      (set_photos [] (setitem "user_name" sender (setitem "item_name" t ud)))
| step_photo file_id ud :
    file_id ∉ default [] (photos ud) →
    step GET_PHOTOS ud (To GET_PHOTOS)
      (set_photos (default [] (photos ud) ++ [file_id]) ud)
| step_photos_done p ps ud :
    photos ud = Some (p :: ps) →
    step GET_PHOTOS ud (To GET_DESCRIPTION) ud
| step_description t ud :
    t = py "Нет информации" ∨ validate_text t 2 500 = true →
    step GET_DESCRIPTION ud (To GET_PRICE) (setitem "description" t ud)
| step_price t ud :
    validate_price t = Returns true →
    step GET_PRICE ud (To GET_CITY) (setitem "price" t ud)
| step_city t ud :
    validate_text t 2 50 = true →
    step GET_CITY ud (To GET_DELIVERY) (setitem "city" t ud)
| step_delivery_pickup ud :
    step GET_DELIVERY ud (To GET_PICKUP_ADDRESS) (setitem "delivery" PICKUP ud)
| step_delivery_other ud :
    step GET_DELIVERY ud (To GET_CONTACTS) (setitem "delivery" DELIVERY ud)
| step_pickup_address t ud :
    validate_text t 5 200 = true →
    step GET_PICKUP_ADDRESS ud (To GET_CONTACTS) (setitem "pickup_address" t ud)
| step_contacts t ud :
    validate_phone t = true →
    step GET_CONTACTS ud (To CONFIRM) (setitem "contacts" t ud)
| step_contacts_failed t ud :
    validate_phone t = true →
    step GET_CONTACTS ud END (setitem "contacts" t ud).

(** ** What a session holds at each stage *)

Definition present (ud : UserData) (keys : list string) : Prop :=
  Forall (λ key, is_Some (get ud key)) keys.

Definition has_photo (ud : UserData) : Prop :=
  ∃ p ps, photos ud = Some (p :: ps).

Definition pickup_known (ud : UserData) : Prop :=
  get ud "delivery" = Some PICKUP → is_Some (get ud "pickup_address").

(** The keys written by the stages that come before a stage. *)
Definition earlier_keys (s : State) : list string :=
  match s with
  | START | CHOOSE_CATEGORY => []
  | GET_ITEM_NAME => ["category"]
  | GET_PHOTOS | GET_DESCRIPTION => ["category"; "item_name"; "user_name"]
  | GET_PRICE => ["category"; "item_name"; "user_name"; "description"]
  | GET_CITY => ["category"; "item_name"; "user_name"; "description"; "price"]
  | GET_DELIVERY =>
    ["category"; "item_name"; "user_name"; "description"; "price"; "city"]
  | GET_PICKUP_ADDRESS | GET_CONTACTS =>
    ["category"; "item_name"; "user_name"; "description"; "price"; "city";
     "delivery"]
  | CONFIRM =>
    ["category"; "item_name"; "user_name"; "description"; "price"; "city";
     "delivery"; "contacts"]
  end%string.

(** The stages that come after the photos, and after the pickup address. *)
Definition after_photos (s : State) : bool :=
  match s with
  | START | CHOOSE_CATEGORY | GET_ITEM_NAME | GET_PHOTOS => false
  | _ => true
  end.

Definition after_pickup (s : State) : bool :=
  match s with
  | GET_CONTACTS | CONFIRM => true
  | _ => false
  end.

Definition collected (s : State) (ud : UserData) : Prop :=
  s ≠ START
  ∧ present ud (earlier_keys s)
  ∧ (after_photos s = true → has_photo ud)
  ∧ (after_pickup s = true → pickup_known ud).

Definition collected_at (b : Bot) : Prop :=
  match conversation b with
  | Some s => collected s (user_data b)
  | None => True
  end.

(** The stages a stage moves forward to. *)
Definition forward_targets (s : State) : list State :=
  match s with
  | START | CONFIRM => []
  | CHOOSE_CATEGORY => [GET_ITEM_NAME]
  | GET_ITEM_NAME => [GET_PHOTOS]
  | GET_PHOTOS => [GET_DESCRIPTION]
  | GET_DESCRIPTION => [GET_PRICE]
  | GET_PRICE => [GET_CITY]
  | GET_CITY => [GET_DELIVERY]
  | GET_DELIVERY => [GET_PICKUP_ADDRESS; GET_CONTACTS]
  | GET_PICKUP_ADDRESS => [GET_CONTACTS]
  | GET_CONTACTS => [CONFIRM]
  end.

(** What the stage that writes a key checks before it stores a value. *)
Definition field_ok (key : string) (v : str) : Prop :=
  if decide (key = "item_name"%string)
  then validate_text v default_min_len default_max_len = true
  else if decide (key = "description"%string) then validate_text v 2 500 = true
  else if decide (key = "price"%string) then validate_price v = Returns true
  else if decide (key = "city"%string) then validate_text v 2 50 = true
  else if decide (key = "delivery"%string) then v = PICKUP ∨ v = DELIVERY
  else if decide (key = "pickup_address"%string) then validate_text v 5 200 = true
  else if decide (key = "contacts"%string) then validate_phone v = true
  else True.

Definition stored_ok (ud : UserData) : Prop :=
  ∀ key v, get ud key = Some v → field_ok key v.

Definition photos_distinct (ud : UserData) : Prop :=
  ∀ l, photos ud = Some l → NoDup l.

(** An action that writes to the administrator's chat. *)
Definition to_admin (a : Action) : bool :=
  match a with
  | send_message ADMIN_CHAT_ID _ _ | send_media_group ADMIN_CHAT_ID _ => true
  | _ => false
  end.

(** The sample listing at the contacts stage. *)
Definition at_contacts : Bot :=
  (handle_updates initial
     (to_delivery ++ [text_msg ann PICKUP; text_msg ann (py "1 Main St")])).1.

(** A string of whitespace only. *)
Definition blank (s : str) : Prop := Forall (λ c, isspace c = true) s.

(** The ASCII digits. *)
Definition ascii_digits (s : str) : Prop := Forall (λ c, 48 ≤ c ≤ 57) s.

(** At the pickup address stage the stored delivery is the pickup. *)
Definition pickup_chosen (b : Bot) : Prop :=
  conversation b = Some GET_PICKUP_ADDRESS →
  get (user_data b) "delivery" = Some PICKUP.

(** The sample listing at the delivery choice. *)
Definition at_delivery : Bot := (handle_updates initial to_delivery).1.

(** A whole listing with pickup, from the start command to the phone
    number. *)
Definition pickup_listing (user : User)
    (category name file_id description price city address phone : str) :
    list Update :=
  [command_msg user "start";
   text_msg user category;
   text_msg user name;
   photo_msg user file_id;
   text_msg user NEXT;
   text_msg user description;
   text_msg user price;
   text_msg user city;
   text_msg user PICKUP;
   text_msg user address;
   text_msg user phone].

(** A text that a stage with Back and Cancel buttons reads as a value. *)
Definition plain (t : str) : Prop := t ≠ BACK ∧ t ≠ CANCEL.

(** ** Properties of the validators *)

Lemma decimal_is_digit c : isdecimal_char c = true → isdigit_char c = true.
Proof. unfold isdigit_char. by intros ->. Qed.

Lemma isdecimal_char_spec c : isdecimal_char c = true ↔ is_Some (decimal_value c).
Proof.
  unfold isdecimal_char. destruct (decimal_value c) as [d|]; split; intros H.
  - by exists d.
  - done.
  - done.
  - by destruct H.
Qed.

Lemma int_digits_all_decimal s : ∀ acc,
  all_decimal s →
  int_digits acc s
  = Returns (fold_left (λ a c, 10 * a + default 0 (decimal_value c)) s acc).
Proof.
  induction s as [|c r IH]; intros acc Hs; [done|].
  apply Forall_cons in Hs as [[d Hd] Hr]. simpl.
  rewrite Hd. simpl. by apply IH.
Qed.

Lemma int_digits_returns s : ∀ acc n,
  int_digits acc s = Returns n → all_decimal s.
Proof.
  induction s as [|c r IH]; intros acc n H; [by apply Forall_nil|].
  simpl in H. destruct (decimal_value c) as [d|] eqn:Hd; [|done].
  apply Forall_cons. split; [by eexists | by eapply IH].
Qed.

Lemma all_decimal_isdigit s : s ≠ [] → all_decimal s → isdigit s = true.
Proof.
  intros Hne Hs. destruct s as [|c r]; [done|].
  unfold isdigit. apply forallb_forall. intros x Hx.
  apply decimal_is_digit, isdecimal_char_spec.
  unfold all_decimal in Hs. rewrite Forall_forall in Hs.
  apply Hs. by apply list_elem_of_In.
Qed.

Lemma validate_price_returns_true s :
  validate_price s = Returns true
  ↔ all_decimal s ∧ 0 < decimal_number s ∧ len s ≤ int_max_str_digits.
Proof.
  unfold validate_price, int, decimal_number. split.
  - destruct (isdigit s); [|done].
    destruct (N.ltb_spec int_max_str_digits (len s)) as [Hl|Hl]; [done|].
    destruct (int_digits 0 s) as [n|e] eqn:Hn; [|done].
    intros [= Hpos]. pose proof (int_digits_returns _ _ _ Hn) as Hs.
    split; [done|]. rewrite (int_digits_all_decimal s 0 Hs) in Hn.
    injection Hn as <-. split; [by apply N.ltb_lt | done].
  - intros (Hs & Hpos & Hl).
    assert (s ≠ []) as Hne by (intros ->; simpl in Hpos; lia).
    rewrite (all_decimal_isdigit s Hne Hs).
    rewrite (proj2 (N.ltb_ge _ _) Hl), (int_digits_all_decimal s 0 Hs).
    f_equal. by apply N.ltb_lt.
Qed.

(** ** Routing *)

Lemma tokens_nonempty :
  BACK ≠ [] ∧ CANCEL ≠ [] ∧ CANCEL_CONFIRM ≠ [] ∧ SUBMIT ≠ [] ∧ NEXT ≠ [].
Proof. by vm_compute. Qed.

Lemma state_filter_text_msg s user t :
  s ≠ START → t ≠ [] → state_filter s (text_msg user t) = true.
Proof. intros Hs Ht. destruct t; [done|]. by destruct s. Qed.

Lemma handle_update_stage s ud u :
  is_command "start" u = false → state_filter s u = true →
  handle_update (mkBot (Some s) ud) u
  = (mkBot (match ret (run (cb_state s) u ud) with To s' => Some s' | END => None end)
       (data (run (cb_state s) u ud)),
     out (run (cb_state s) u ud)).
Proof. intros H1 H2. unfold handle_update, select. simpl. by rewrite H1, H2. Qed.

Lemma handle_update_text s ud user t :
  s ≠ START → t ≠ [] →
  handle_update (mkBot (Some s) ud) (text_msg user t)
  = (mkBot (match ret (run (cb_state s) (text_msg user t) ud) with
            | To s' => Some s' | END => None end)
       (data (run (cb_state s) (text_msg user t) ud)),
     out (run (cb_state s) (text_msg user t) ud)).
Proof.
  intros. apply handle_update_stage; [done | by apply state_filter_text_msg].
Qed.

(** From every stage that has a backward target, the Back button moves
    the conversation to that target and leaves every text field as it is,
    the one the stage wrote included; only the photo stage removes
    something, its whole photo list. *)
Lemma back_moves_without_rollback s ud user target :
  back_target s ud = Some target →
  (handle_update (mkBot (Some s) ud) (text_msg user BACK)).1
  = mkBot (Some target) (if bool_decide (s = GET_PHOTOS) then pop_photos ud else ud).
Proof.
  intros Ht. destruct s; simpl in Ht; try done;
    try (injection Ht as <-; vm_compute; reflexivity).
  rewrite handle_update_text; [|done|apply tokens_nonempty].
  cbn [run message_text text text_msg default from_option].
  unfold handle_contacts. rewrite bool_decide_eq_true_2 by done.
  case_bool_decide; by injection Ht as <-.
Qed.

(** The Back button at the city stage, with a city stored. *)
Lemma back_moves_without_rollback_witness :
  (handle_update (mkBot (Some GET_CITY) (setitem "city" (py "Town") clear))
     (text_msg ann BACK)).1
  = mkBot (Some GET_PRICE) (setitem "city" (py "Town") clear).
Proof.
  apply (back_moves_without_rollback GET_CITY _ ann GET_PRICE).
  reflexivity.
Defined.

(** The search finds slices only. *)
Lemma starts_with_prefix needle : ∀ hay,
  starts_with needle hay = true → ∃ post, hay = needle ++ post.
Proof.
  induction needle as [|c n IH]; intros hay H; [by exists hay|].
  destruct hay as [|d h]; [discriminate H|]. cbn [starts_with] in H.
  apply andb_true_iff in H as [Hc Hn]. apply N.eqb_eq in Hc as <-.
  destruct (IH h Hn) as [post ->]. by exists post.
Qed.

Lemma occurs_inb_sound needle : ∀ hay,
  occurs_inb needle hay = true → occurs_in needle hay.
Proof.
  induction hay as [|d h IH]; intros H; cbn [occurs_inb] in H;
    apply orb_true_iff in H as [H|H].
  - destruct (starts_with_prefix _ _ H) as [post ->]. by exists [], post.
  - discriminate H.
  - destruct (starts_with_prefix _ _ H) as [post ->]. by exists [], post.
  - destruct (IH H) as (pre & post & ->). by exists (d :: pre), post.
Qed.

(** C3: a user who gave a pickup address and came back to the address
    stage presses Back.  The conversation moves to the delivery choice and
    the address stays stored, whereas the photo stage drops its list on
    Back.  When the user then chooses delivery and submits, the one
    message to the administrator names delivery and still carries the
    pickup address. *)
Theorem back_keeps_pickup_address :
  conversation at_pickup_again = Some GET_PICKUP_ADDRESS
  ∧ get (user_data at_pickup_again) "pickup_address" = Some (py "1 Main St")
  ∧ conversation (handle_update at_pickup_again (text_msg ann BACK)).1
    = Some GET_DELIVERY
  ∧ get (user_data (handle_update at_pickup_again (text_msg ann BACK)).1)
      "pickup_address"
    = Some (py "1 Main St")
  ∧ conversation with_photo = Some GET_PHOTOS
  ∧ photos (user_data with_photo) = Some [py "A"]
  ∧ conversation (handle_update with_photo (text_msg ann BACK)).1
    = Some GET_ITEM_NAME
  ∧ photos (user_data (handle_update with_photo (text_msg ann BACK)).1) = None
  ∧ ∃ sub,
      dispatched (handle_updates at_pickup_again then_delivery).2 = [sub]
      ∧ occurs_in (py "🚚 *Доставка:* 🏪 Доставка") (summaryText sub)
      ∧ occurs_in (py "🏠 *Адрес самовывоза:* 1 Main St") (summaryText sub).
Proof.
  do 8 (split; [vm_compute; reflexivity|]).
  eexists. split; [vm_compute; reflexivity|].
  split; apply occurs_inb_sound; vm_compute; reflexivity.
Qed.

(** At every stage, the text of that stage's own cancel button (one text
    for the stages before the confirmation, another on the confirmation
    screen) clears the session, ends the conversation and sends the
    cancellation notice; from then on an update is dropped unless it is
    the start command, which opens a new conversation. *)
Lemma stage_cancel_ends_session s ud user :
  handle_update (mkBot (Some s) ud) (text_msg user (cancel_token s))
  = (initial,
     [reply_text
        (py "❌ Заявка отменена. Все данные удалены." ++ NL ++ NL ++
         py "Для новой заявки нажмите /start")
        (Some get_start_markup)])
  ∧ ∀ u,
      handle_update initial u
      = if is_command "start" u
        then (mkBot (Some CHOOSE_CATEGORY) clear, out (start (effective_user u) clear))
        else (initial, []).
Proof.
  split.
  - destruct s; vm_compute; reflexivity.
  - intros u. unfold handle_update, select. simpl.
    by destruct (is_command "start" u).
Qed.

(** C2: the fallbacks of [main] send both cancel texts to [cancel], but
    the handler of the current stage takes every plain text before the
    fallbacks are tried.  On the confirmation screen the cancel text of
    the other stages is answered by a request to use the buttons and the
    session stays as it is; at the category stage the cancel text of the
    confirmation screen is stored as the category and the conversation
    goes on. *)
Theorem cancel_fallback_shadowed :
  filters_Regex_cancel (text_msg ann CANCEL) = true
  ∧ filters_Regex_cancel (text_msg ann CANCEL_CONFIRM) = true
  ∧ (∀ s t, s ≠ START → t ≠ [] →
       select (Some s) (text_msg ann t) = Some (cb_state s))
  ∧ conversation at_confirm = Some CONFIRM
  ∧ get (user_data at_confirm) "item_name" = Some (py "Old Ruble")
  ∧ handle_update at_confirm (text_msg ann CANCEL)
    = (at_confirm,
       [reply_text (py "Пожалуйста, используйте кнопки для подтверждения")
          (Some get_confirm_markup)])
  ∧ conversation at_category = Some CHOOSE_CATEGORY
  ∧ conversation (handle_update at_category (text_msg ann CANCEL_CONFIRM)).1
    = Some GET_ITEM_NAME
  ∧ get (user_data (handle_update at_category (text_msg ann CANCEL_CONFIRM)).1)
      "category"
    = Some CANCEL_CONFIRM.
Proof.
  do 2 (split; [vm_compute; reflexivity|]).
  split.
  { intros s t Hs Ht. unfold select.
    replace (is_command "start" (text_msg ann t)) with false
      by (vm_compute; reflexivity).
    by rewrite state_filter_text_msg. }
  do 5 (split; [vm_compute; reflexivity|]).
  vm_compute. reflexivity.
Qed.

Lemma confirm_keeps_cancel_text ud :
  ret (confirm_application CANCEL ud) = To CONFIRM.
Proof. vm_compute. reflexivity. Qed.

Lemma handle_category_ends text ud :
  ret (handle_category text ud) = END → text = CANCEL.
Proof. unfold handle_category. by case_bool_decide. Qed.

(** No text ends the conversation at every stage. *)
Lemma no_universal_cancel_text user ud :
  ¬ ∃ t, ∀ s, s ≠ START →
      conversation (handle_update (mkBot (Some s) ud) (text_msg user t)).1 = None.
Proof.
  intros [t H].
  pose proof (H CHOOSE_CATEGORY ltac:(done)) as H1.
  pose proof (H CONFIRM ltac:(done)) as H2.
  destruct t as [|c t]; [revert H1; vm_compute; discriminate|].
  rewrite handle_update_text in H1, H2 by done.
  cbn [run message_text text text_msg default from_option id fst conversation] in H1, H2.
  destruct (ret (handle_category (c :: t) ud)) eqn:Hr; [done|].
  apply handle_category_ends in Hr. rewrite Hr in H2.
  by rewrite confirm_keeps_cancel_text in H2.
Qed.

(** C1: eleven distinct photos sent to the photo stage.  All eleven file
    ids are stored, the stage stays the photo stage, and the reply to the
    eleventh is the notice that no more than ten photos can be uploaded. *)
Theorem eleventh_photo_is_stored :
  conversation at_photos = Some GET_PHOTOS
  ∧ photos (user_data at_photos) = Some []
  ∧ conversation (handle_updates at_photos (photo_msg ann <$> eleven_photos)).1
    = Some GET_PHOTOS
  ∧ photos (user_data (handle_updates at_photos (photo_msg ann <$> eleven_photos)).1)
    = Some eleven_photos
  ∧ length eleven_photos = 11%nat
  ∧ last (handle_updates at_photos (photo_msg ann <$> eleven_photos)).2
    = Some (reply_text
              (py "❌ Можно загрузить не более 10 фото. Нажмите 📤 Далее для продолжения")
              (Some get_photos_markup)).
Proof. vm_compute. repeat split; reflexivity. Qed.

(** A file id that is not stored yet is appended, however many are. *)
Lemma handle_photos_appends user file_id stored ud :
  photos ud = Some stored → file_id ∉ stored →
  ret (handle_photos (photo_msg user file_id) ud) = To GET_PHOTOS
  ∧ photos (data (handle_photos (photo_msg user file_id) ud))
    = Some (stored ++ [file_id]).
Proof.
  intros Hp Hn. unfold handle_photos.
  cbn [text photo photo_msg last]. rewrite Hp.
  cbn [default from_option photos]. rewrite Hp. cbn [default from_option].
  rewrite bool_decide_eq_true_2 by done. by split.
Qed.

(** C5: a name of 101 letters, sent at the item name stage, is stored
    under ['item_name'] and the conversation moves on to the photos. *)
Theorem item_name_of_101_letters_accepted :
  len (strip long_name) = 101
  ∧ conversation at_item_name = Some GET_ITEM_NAME
  ∧ conversation (handle_update at_item_name (text_msg ann long_name)).1
    = Some GET_PHOTOS
  ∧ get (user_data (handle_update at_item_name (text_msg ann long_name)).1) "item_name"
    = Some long_name.
Proof. vm_compute. repeat split; reflexivity. Qed.

(** The item name stage accepts exactly the trimmed lengths 2 to 200. *)
Lemma handle_item_name_accepts text user ud :
  text ≠ BACK → text ≠ CANCEL →
  ret (handle_item_name text user ud) = To GET_PHOTOS
  ↔ 2 ≤ len (strip text) ≤ 200.
Proof.
  intros Hb Hc. unfold handle_item_name.
  rewrite !bool_decide_eq_false_2 by done.
  unfold validate_text, default_min_len, default_max_len.
  destruct (N.leb_spec 2 (len (strip text)));
    destruct (N.leb_spec (len (strip text)) 200);
    cbn [negb andb ret]; split; try done; try lia.
Qed.

Ltac text_step :=
  rewrite handle_update_text by (done || apply tokens_nonempty);
  cbn [run message_text text text_msg default from_option id].

(** At a stage with a validator, a text message that is neither the Back
    nor the Cancel button and for which the stage's validator call returns
    false is answered by one error notice, and the stage and the whole
    session stay as they were. *)
Lemma rejected_input_reprompts s ud user t :
  t ≠ [] → t ≠ BACK → t ≠ CANCEL →
  validator s t = Some (Returns false) →
  ∃ notice,
    error_notice s = Some notice
    ∧ handle_update (mkBot (Some s) ud) (text_msg user t)
      = (mkBot (Some s) ud, [notice]).
Proof.
  intros Ht Hb Hc Hv.
  destruct s; cbn [validator] in Hv; try discriminate Hv;
    injection Hv as Hv; (eexists; split; [reflexivity|]); text_step.
  - unfold handle_item_name. rewrite !bool_decide_eq_false_2 by done.
    by rewrite Hv.
  - assert (t ≠ NO_INFO) by (intros ->; revert Hv; by vm_compute).
    unfold handle_description. rewrite !bool_decide_eq_false_2 by done.
    by rewrite Hv.
  - unfold handle_price. rewrite !bool_decide_eq_false_2 by done.
    by rewrite Hv.
  - unfold handle_city. rewrite !bool_decide_eq_false_2 by done.
    by rewrite Hv.
  - unfold handle_pickup_address. rewrite !bool_decide_eq_false_2 by done.
    by rewrite Hv.
  - unfold handle_contacts. rewrite !bool_decide_eq_false_2 by done.
    by rewrite Hv.
Qed.

(** A one-letter city. *)
Lemma rejected_input_reprompts_witness :
  ∃ notice,
    error_notice GET_CITY = Some notice
    ∧ handle_update (mkBot (Some GET_CITY) clear) (text_msg ann (py "X"))
      = (mkBot (Some GET_CITY) clear, [notice]).
Proof.
  apply (rejected_input_reprompts GET_CITY clear ann (py "X")).
  - vm_compute. discriminate.
  - vm_compute. discriminate.
  - vm_compute. discriminate.
  - vm_compute. reflexivity.
Defined.

(** C6: two inputs that the rule of their stage rejects and that are not
    answered by a re-prompt.  A name of 101 letters is outside the bounds
    2..100 of the name, and the name stage stores it and moves on to the
    photos; a five followed by a superscript two is no decimal number, and
    at the price stage it ends the conversation with the general error
    message. *)
Theorem rejected_inputs_not_reprompted :
  validate_text long_name 2 100 = false
  ∧ conversation at_item_name = Some GET_ITEM_NAME
  ∧ get (user_data at_item_name) "item_name" = None
  ∧ conversation (handle_update at_item_name (text_msg ann long_name)).1
    = Some GET_PHOTOS
  ∧ get (user_data (handle_update at_item_name (text_msg ann long_name)).1)
      "item_name"
    = Some long_name
  ∧ ¬ all_decimal (py "5²")
  ∧ validate_price (py "5²") = Raises ValueError
  ∧ conversation at_price = Some GET_PRICE
  ∧ handle_update at_price (text_msg ann (py "5²"))
    = (mkBot None (user_data at_price), error_handler).
Proof.
  do 5 (split; [vm_compute; reflexivity|]).
  split.
  { intros H. apply Forall_cons in H as [_ H].
    apply Forall_cons in H as [[d H] _]. revert H. vm_compute. discriminate. }
  do 2 (split; [vm_compute; reflexivity|]).
  vm_compute. reflexivity.
Qed.



(** C9: the category stage stores any text other than its Cancel button
    under the category key, where it is read back, leaves every other key
    as it was and moves on to the item name; the delivery stage answers
    any text other than its two options, Back and Cancel with a request to
    use the options, and the session stays as it was. *)
Theorem category_free_text_delivery_strict ud user t (Ht : t ≠ []) :
  (t ≠ CANCEL →
   handle_update (mkBot (Some CHOOSE_CATEGORY) ud) (text_msg user t)
   = (mkBot (Some GET_ITEM_NAME) (setitem "category" t ud),
      [reply_text (py "✏️ Введите название товара (от 2 до 100 символов):")
         (Some get_back_cancel_markup)])
   ∧ get (user_data
            (handle_update (mkBot (Some CHOOSE_CATEGORY) ud) (text_msg user t)).1)
       "category"
     = Some t
   ∧ ∀ key, key ≠ "category"%string →
       entry (user_data
                (handle_update (mkBot (Some CHOOSE_CATEGORY) ud)
                   (text_msg user t)).1) key
       = entry ud key)
  ∧ (t ≠ PICKUP → t ≠ DELIVERY → t ≠ BACK → t ≠ CANCEL →
     handle_update (mkBot (Some GET_DELIVERY) ud) (text_msg user t)
     = (mkBot (Some GET_DELIVERY) ud,
        [reply_text (py "Пожалуйста, выберите вариант из предложенных:")
           (Some get_delivery_markup)])).
Proof.
  split.
  - intros Hc.
    assert (handle_update (mkBot (Some CHOOSE_CATEGORY) ud) (text_msg user t)
            = (mkBot (Some GET_ITEM_NAME) (setitem "category" t ud),
               [reply_text
                  (py "✏️ Введите название товара (от 2 до 100 символов):")
                  (Some get_back_cancel_markup)])) as ->.
    { text_step. unfold handle_category. by rewrite bool_decide_eq_false_2. }
    cbn [fst user_data]. split; [reflexivity|]. split.
    + apply lookup_insert_eq.
    + intros key Hk. unfold entry. case_bool_decide; [done|].
      cbn [setitem fields]. by rewrite lookup_insert_ne.
  - intros Hp Hd Hb Hc. text_step. unfold handle_delivery.
    rewrite !bool_decide_eq_false_2 by done.
    rewrite bool_decide_eq_false_2; [done|].
    rewrite !elem_of_cons, elem_of_nil. by intros [?|[?|?]].
Qed.

(** The Back text as a category, and a free text as a delivery. *)
Lemma category_free_text_delivery_strict_witness :
  (handle_update (mkBot (Some CHOOSE_CATEGORY) clear) (text_msg ann BACK)
   = (mkBot (Some GET_ITEM_NAME) (setitem "category" BACK clear),
      [reply_text (py "✏️ Введите название товара (от 2 до 100 символов):")
         (Some get_back_cancel_markup)])
   ∧ get (user_data
            (handle_update (mkBot (Some CHOOSE_CATEGORY) clear)
               (text_msg ann BACK)).1) "category"
     = Some BACK
   ∧ ∀ key, key ≠ "category"%string →
       entry (user_data
                (handle_update (mkBot (Some CHOOSE_CATEGORY) clear)
                   (text_msg ann BACK)).1) key
       = entry clear key)
  ∧ handle_update (mkBot (Some GET_DELIVERY) clear) (text_msg ann (py "by post"))
    = (mkBot (Some GET_DELIVERY) clear,
       [reply_text (py "Пожалуйста, выберите вариант из предложенных:")
          (Some get_delivery_markup)]).
Proof.
  split.
  - apply (category_free_text_delivery_strict clear ann BACK).
    + vm_compute. discriminate.
    + vm_compute. discriminate.
  - apply (category_free_text_delivery_strict clear ann (py "by post"));
      vm_compute; discriminate.
Defined.

(** ** The submission *)

Lemma occurs_in_nil (m : str) : occurs_in [] m.
Proof. by exists [], m. Qed.

Lemma occurs_in_mid (a x b : str) : occurs_in x (a ++ x ++ b).
Proof. by exists a, b. Qed.

Lemma occurs_in_end (a x : str) : occurs_in x (a ++ x).
Proof. exists a, []. by rewrite app_nil_r. Qed.

Lemma occurs_in_join (x part : str) (parts : list str) :
  part ∈ parts → occurs_in x part → occurs_in x (join parts).
Proof.
  intros Hin [pre [post ->]].
  apply list_elem_of_split in Hin as [l1 [l2 ->]].
  exists (concat l1 ++ pre), (post ++ concat l2).
  unfold join. rewrite concat_app. simpl. by rewrite <- !app_assoc.
Qed.

Lemma has_key_field ud key :
  key ≠ "photos"%string → has_key ud key = true → is_Some (get ud key).
Proof.
  intros Hk. unfold has_key, get. rewrite bool_decide_eq_false_2 by done.
  intros H%bool_decide_eq_true. by destruct (fields ud !! key).
Qed.

Lemma missing_fields_nil ud key :
  missing_fields ud = [] → key ∈ required_fields → is_Some (get ud key).
Proof.
  intros Hm Hk. apply has_key_field.
  - intros ->. revert Hk. unfold required_fields.
    rewrite !elem_of_cons, elem_of_nil. intros H. by decompose [or] H.
  - destruct (has_key ud key) eqn:E; [done|]. exfalso.
    assert (key ∈ missing_fields ud) as Hin.
    { apply list_elem_of_In, filter_In. split; [by apply list_elem_of_In|].
      by rewrite E. }
    rewrite Hm in Hin. by apply elem_of_nil in Hin.
Qed.

Lemma getitem_present ud key v : get ud key = Some v → getitem ud key = Returns v.
Proof. unfold get, getitem. by intros ->. Qed.

Lemma admin_message_present ud :
  missing_fields ud = [] → is_Some (get ud "user_name") →
  ∃ m, admin_message ud = Returns m
       ∧ (∀ key, key ∈ required_fields →
            ∃ v, get ud key = Some v ∧ occurs_in v m)
       ∧ (∀ a, get ud "pickup_address" = Some a → occurs_in a m).
Proof.
  intros Hm [user_name Hu].
  destruct (missing_fields_nil ud "item_name" Hm) as [item_name Hi];
    [unfold required_fields; set_solver|].
  destruct (missing_fields_nil ud "category" Hm) as [category Hc];
    [unfold required_fields; set_solver|].
  destruct (missing_fields_nil ud "price" Hm) as [price Hp];
    [unfold required_fields; set_solver|].
  destruct (missing_fields_nil ud "city" Hm) as [city Hci];
    [unfold required_fields; set_solver|].
  destruct (missing_fields_nil ud "delivery" Hm) as [delivery Hd];
    [unfold required_fields; set_solver|].
  destruct (missing_fields_nil ud "contacts" Hm) as [contacts Hco];
    [unfold required_fields; set_solver|].
  unfold admin_message.
  rewrite (getitem_present _ _ _ Hu), (getitem_present _ _ _ Hi),
    (getitem_present _ _ _ Hc), (getitem_present _ _ _ Hp),
    (getitem_present _ _ _ Hci), (getitem_present _ _ _ Hd),
    (getitem_present _ _ _ Hco).
  cbn [mbind outcome_bind].
  eexists. split; [reflexivity|]. split.
  - intros key Hk. unfold required_fields in Hk.
    rewrite !elem_of_cons, elem_of_nil in Hk.
    destruct Hk as [->|[->|[->|[->|[->|[->|[]]]]]]]; eexists; (split; [eassumption|]).
    + eapply occurs_in_join; [|apply occurs_in_mid].
      apply elem_of_app; left. do 2 apply list_elem_of_further. apply list_elem_of_here.
    + eapply occurs_in_join; [|apply occurs_in_mid].
      apply elem_of_app; left. do 3 apply list_elem_of_further. apply list_elem_of_here.
    + eapply occurs_in_join; [|apply occurs_in_mid].
      apply elem_of_app; left. do 5 apply list_elem_of_further. apply list_elem_of_here.
    + eapply occurs_in_join; [|apply occurs_in_mid].
      apply elem_of_app; left. do 6 apply list_elem_of_further. apply list_elem_of_here.
    + eapply occurs_in_join; [|apply occurs_in_end].
      apply elem_of_app; left. do 7 apply list_elem_of_further. apply list_elem_of_here.
    + eapply occurs_in_join;
        [|apply (occurs_in_end (NL ++ py "📞 *Контакты:* "))].
      rewrite <- app_assoc.
      apply elem_of_app; right. apply elem_of_app; right. apply list_elem_of_here.
  - intros a Ha. destruct a as [|c a]; [apply occurs_in_nil|].
    eapply occurs_in_join;
      [|apply (occurs_in_end (NL ++ py "🏠 *Адрес самовывоза:* "))].
    rewrite <- app_assoc.
    apply elem_of_app; right. apply elem_of_app; left.
    unfold pickup_line. rewrite Ha. apply list_elem_of_here.
Qed.

(** ** What one step does to the session *)

Lemma data_try_except ud body :
  (∀ r, body = Returns r → data r = ud) → data (try_except ud body) = ud.
Proof. intros H. destruct body as [r|e]; [by apply H | done]. Qed.

Lemma handle_contacts_data text ud :
  data (handle_contacts text ud) = ud
  ∨ data (handle_contacts text ud) = clear
  ∨ validate_phone text = true
    ∧ data (handle_contacts text ud) = setitem "contacts" text ud.
Proof.
  unfold handle_contacts.
  case_bool_decide; [case_bool_decide; by left|].
  case_bool_decide; [right; by left|].
  destruct (validate_phone text); [|by left].
  right; right. split; [done|]. cbn [negb].
  apply data_try_except. intros r.
  repeat (match goal with
          | |- context [getitem ?u ?k] => destruct (getitem u k); [|done]
          end; cbn [mbind outcome_bind]).
  by intros [= <-].
Qed.

Lemma handle_price_data text ud :
  data (handle_price text ud) = ud
  ∨ data (handle_price text ud) = clear
  ∨ validate_price text = Returns true
    ∧ data (handle_price text ud) = setitem "price" text ud.
Proof.
  unfold handle_price.
  case_bool_decide; [by left|].
  case_bool_decide; [right; by left|].
  destruct (validate_price text) as [[|]|e]; cbn [mbind outcome_bind try_except negb];
    [right; right; by split | by left | by left].
Qed.

Lemma handle_photos_data u ud :
  data (handle_photos u ud) = ud
  ∨ data (handle_photos u ud) = clear
  ∨ data (handle_photos u ud) = pop_photos ud
  ∨ negb (filters_TEXT u) && filters_PHOTO u = true
    ∧ ∃ l, data (handle_photos u ud) = set_photos l ud.
Proof.
  unfold handle_photos, filters_TEXT, filters_PHOTO.
  destruct (text u) as [[|c t]|].
  2:{ case_bool_decide; [right; right; by left|].
      case_bool_decide; [right; by left|].
      case_bool_decide; [|by left]. case_match; by left. }
  all: destruct (photo u) as [|p ps] eqn:Hp; [by left|];
    destruct (last (p :: ps)) as [file_id|] eqn:Hl; [|by left];
    destruct (photos ud) as [stored|] eqn:Hs; cbn [default from_option id photos set_photos];
    rewrite ?Hs; cbn [default from_option id];
    case_bool_decide; try (by left);
    right; right; right; (split; [done|]); by eexists.
Qed.

Lemma confirm_application_data text ud :
  data (confirm_application text ud) = ud
  ∨ data (confirm_application text ud) = clear.
Proof.
  unfold confirm_application.
  case_bool_decide; [by left|]. case_bool_decide; [by right|].
  case_bool_decide; [by left|]. destruct (missing_fields ud); [|by left].
  destruct (admin_message ud); [by right | by left].
Qed.

Lemma state_step_shape s u ud :
  data (run (cb_state s) u ud) = ud
  ∨ data (run (cb_state s) u ud) = clear
  ∨ (s = GET_PHOTOS ∧ data (run (cb_state s) u ud) = pop_photos ud)
  ∨ accepted s u = true
    ∧ ((∃ key v, writes s = [key] ∧ key ≠ "photos"%string
                 ∧ data (run (cb_state s) u ud) = setitem key v ud)
       ∨ (s = GET_ITEM_NAME
          ∧ ∃ v1 v2, data (run (cb_state s) u ud)
                     = set_photos [] (setitem "user_name" v2 (setitem "item_name" v1 ud)))
       ∨ (s = GET_PHOTOS ∧ ∃ l, data (run (cb_state s) u ud) = set_photos l ud)).
Proof.
  destruct s; cbn [run accepted writes].
  - by left.
  - unfold handle_category. case_bool_decide; [right; by left|].
    do 3 right. split; [done|]. left. by eexists _, _.
  - unfold handle_item_name.
    case_bool_decide; [by left|]. case_bool_decide; [right; by left|].
    destruct (validate_text _ _ _); [|by left].
    do 3 right. split; [done|]. right; left. split; [done|]. by eexists _, _.
  - destruct (handle_photos_data u ud) as [H|[H|[H|[Ha [l H]]]]]; rewrite H.
    + by left.
    + right; by left.
    + right; right; by left.
    + do 3 right. split; [done|]. right; right. split; [done|]. by exists l.
  - unfold handle_description.
    case_bool_decide; [by left|]. case_bool_decide; [right; by left|].
    case_bool_decide.
    { do 3 right. split; [done|]. left. by eexists _, _. }
    destruct (validate_text _ _ _); [|by left].
    do 3 right. split; [done|]. left. by eexists _, _.
  - destruct (handle_price_data (message_text u) ud) as [H|[H|[Ha H]]]; rewrite H.
    + by left.
    + right; by left.
    + do 3 right. rewrite Ha. split; [done|]. left. by eexists _, _.
  - unfold handle_city.
    case_bool_decide; [by left|]. case_bool_decide; [right; by left|].
    destruct (validate_text _ _ _); [|by left].
    do 3 right. split; [done|]. left. by eexists _, _.
  - unfold handle_delivery.
    case_bool_decide; [by left|]. case_bool_decide; [right; by left|].
    case_bool_decide; [|by left]. cbn [negb].
    case_bool_decide; do 3 right; (split; [done|]); left; by eexists _, _.
  - unfold handle_pickup_address.
    case_bool_decide; [by left|]. case_bool_decide; [right; by left|].
    destruct (validate_text _ _ _); [|by left].
    do 3 right. split; [done|]. left. by eexists _, _.
  - destruct (handle_contacts_data (message_text u) ud) as [H|[H|[Ha H]]]; rewrite H.
    + by left.
    + right; by left.
    + do 3 right. split; [done|]. left. by eexists _, _.
  - destruct (confirm_application_data (message_text u) ud) as [H|H]; rewrite H.
    + by left.
    + right; by left.
Qed.

Lemma handle_update_shape s u ud :
  user_data (handle_update (mkBot (Some s) ud) u).1 = ud
  ∨ user_data (handle_update (mkBot (Some s) ud) u).1 = clear
  ∨ user_data (handle_update (mkBot (Some s) ud) u).1 = data (run (cb_state s) u ud).
Proof.
  unfold handle_update, select. cbn [conversation user_data].
  destruct (is_command "start" u); [right; by left|].
  destruct (state_filter s u); [right; by right|].
  destruct (is_command "cancel" u); [right; by left|].
  destruct (filters_Regex_cancel u); [right; by left | by left].
Qed.

Lemma handle_update_idle u :
  user_data (handle_update (mkBot None clear) u).1 = clear.
Proof.
  unfold handle_update, select. cbn [conversation user_data].
  by destruct (is_command "start" u).
Qed.

Lemma entry_clear key : entry clear key = None.
Proof. unfold entry. by case_bool_decide. Qed.

Lemma entry_setitem_ne k v ud key :
  key ≠ k → entry (setitem k v ud) key = entry ud key.
Proof.
  intros Hk. unfold entry. case_bool_decide; [done|].
  cbn [setitem fields]. by rewrite lookup_insert_ne.
Qed.

Lemma entry_photos_ne ud ud' key :
  fields ud' = fields ud → key ≠ "photos"%string → entry ud' key = entry ud key.
Proof. intros Hf Hk. unfold entry. rewrite bool_decide_eq_false_2 by done. by rewrite Hf. Qed.

(** C8, as the code has it: one update either empties the session or
    changes only the keys of the current stage, which is one key for every
    stage but the item name stage, whose keys are ['item_name'],
    ['user_name'] and ['photos']; and a key gets a value only from an input
    the stage accepts. *)
Theorem transition_writes_own_keys s u ud :
  (user_data (handle_update (mkBot (Some s) ud) u).1 = clear
   ∨ ∀ key, entry (user_data (handle_update (mkBot (Some s) ud) u).1) key
            ≠ entry ud key → key ∈ writes s)
  ∧ (∀ key, entry (user_data (handle_update (mkBot (Some s) ud) u).1) key
            ≠ entry ud key →
            is_Some (entry (user_data (handle_update (mkBot (Some s) ud) u).1) key) →
            accepted s u = true).
Proof.
  destruct (handle_update_shape s u ud) as [H|[H|H]]; rewrite H.
  - split; [right|]; by intros key Hk.
  - split; [by left|]. intros key _ [x Hx]. by rewrite entry_clear in Hx.
  - destruct (state_step_shape s u ud)
      as [E|[E|[[-> E]|[Ha [(k & v & Hw & Hk & E)|[(-> & v1 & v2 & E)|(-> & l & E)]]]]]];
      rewrite E.
    + split; [right|]; by intros key Hk.
    + split; [by left|]. intros key _ [x Hx]. by rewrite entry_clear in Hx.
    + split.
      * right. intros key Hk. destruct (decide (key = "photos"%string)) as [->|Hn].
        { cbn [writes]. apply list_elem_of_here. }
        by rewrite (entry_photos_ne ud (pop_photos ud)) in Hk.
      * intros key Hk [x Hx]. destruct (decide (key = "photos"%string)) as [->|Hn].
        { by vm_compute in Hx. }
        by rewrite (entry_photos_ne ud (pop_photos ud)) in Hk.
    + split; [|done]. right. intros key Hne. rewrite Hw.
      destruct (decide (key = k)) as [->|Hn]; [apply list_elem_of_here|].
      by rewrite entry_setitem_ne in Hne.
    + split; [|done]. right. intros key Hne. cbn [writes].
      rewrite !elem_of_cons.
      destruct (decide (key = "item_name"%string)) as [->|H1]; [by left|].
      destruct (decide (key = "user_name"%string)) as [->|H2]; [right; by left|].
      destruct (decide (key = "photos"%string)) as [->|H3]; [right; right; by left|].
      exfalso. apply Hne.
      rewrite (entry_photos_ne (setitem "user_name" v2 (setitem "item_name" v1 ud))) by done.
      by rewrite !entry_setitem_ne.
    + split; [|done]. right. intros key Hne. cbn [writes].
      destruct (decide (key = "photos"%string)) as [->|Hn]; [apply list_elem_of_here|].
      by rewrite (entry_photos_ne ud (set_photos l ud)) in Hne.
Qed.

(** C8 fails as stated: an accepted item name writes three keys, and the
    ['photos'] key is there, empty, before any photo was sent. *)
Lemma item_name_writes_three_keys :
  conversation at_item_name = Some GET_ITEM_NAME
  ∧ has_key (user_data at_item_name) "item_name" = false
  ∧ has_key (user_data at_item_name) "user_name" = false
  ∧ has_key (user_data at_item_name) "photos" = false
  ∧ (handle_update at_item_name (text_msg ann (py "Old Ruble"))).1 = at_photos
  ∧ has_key (user_data at_photos) "item_name" = true
  ∧ has_key (user_data at_photos) "user_name" = true
  ∧ photos (user_data at_photos) = Some [].
Proof. vm_compute. repeat split; reflexivity. Qed.

(** ** Reachable sessions *)

Lemma handle_updates_cons b u us :
  (handle_updates b (u :: us)).1 = (handle_updates (handle_update b u).1 us).1.
Proof.
  change (handle_updates b (u :: us))
    with (let '(b1, o1) := handle_update b u in
          let '(b2, o2) := handle_updates b1 us in (b2, o1 ++ o2)).
  destruct (handle_update b u) as [b1 o1]. cbn [fst].
  by destruct (handle_updates b1 us).
Qed.

Lemma named_clear : named clear.
Proof.
  unfold named, get. cbn [clear fields]. rewrite lookup_empty.
  by intros [x Hx].
Qed.

Lemma named_step b u : named (user_data b) → named (user_data (handle_update b u).1).
Proof.
  destruct b as [[s|] ud]; cbn [user_data]; intros Hn.
  2:{ unfold handle_update, select. cbn [conversation].
      destruct (is_command "start" u); [apply named_clear | done]. }
  destruct (handle_update_shape s u ud) as [H|[H|H]]; rewrite H;
    [done | apply named_clear |].
  destruct (state_step_shape s u ud)
    as [E|[E|[[-> E]|[Ha [(k & v & Hw & Hk & E)|[(-> & v1 & v2 & E)|(-> & l & E)]]]]]];
    rewrite E; [done | apply named_clear | done | | | done].
  - unfold named, get in *. cbn [setitem fields].
    assert (k ≠ "item_name"%string ∧ k ≠ "user_name"%string) as [K1 K2]
      by (destruct s; cbn [writes] in Hw; try discriminate Hw;
          injection Hw as <-; by split).
    rewrite !lookup_insert_ne by done. exact Hn.
  - intros _. unfold get. cbn [set_photos setitem fields].
    rewrite lookup_insert_eq. by eexists.
Qed.

Lemma handle_chat_updates_cons cs chat u us :
  (handle_chat_updates cs ((chat, u) :: us)).1
  = (handle_chat_updates (handle_chat_update cs chat u).1 us).1.
Proof.
  change (handle_chat_updates cs ((chat, u) :: us))
    with (let '(cs1, o1) := handle_chat_update cs chat u in
          let '(cs2, o2) := handle_chat_updates cs1 us in (cs2, o1 ++ o2)).
  destruct (handle_chat_update cs chat u) as [cs1 o1]. cbn [fst].
  by destruct (handle_chat_updates cs1 us).
Qed.

(** An update in a chat works on the user's session as it is, whatever
    chat it was written in. *)
Lemma session_handle_chat_update cs chat u :
  session (handle_chat_update cs chat u).1
  = user_data (handle_update (view chat cs) u).1.
Proof.
  unfold handle_chat_update. by destruct (handle_update (view chat cs) u).
Qed.

(** An invariant of the session that single updates keep holds in every
    reachable session. *)
Lemma reachable_data_ind (P : UserData → Prop) :
  P clear → (∀ b u, P (user_data b) → P (user_data (handle_update b u).1)) →
  ∀ b, reachable b → P (user_data b).
Proof.
  intros H0 Hstep b (us & chat & <-). cbn [view user_data].
  assert (∀ cs, P (session cs) → P (session (handle_chat_updates cs us).1)) as H.
  { induction us as [|[c u] us IH]; intros cs Hcs; [done|].
    rewrite handle_chat_updates_cons. apply IH.
    rewrite session_handle_chat_update. by apply Hstep. }
  by apply H.
Qed.

(** One chat is a run of [handle_updates]. *)
Lemma handle_chat_updates_in_chat chat us : ∀ cs,
  view chat (handle_chat_updates cs (in_chat chat us)).1
  = (handle_updates (view chat cs) us).1.
Proof.
  induction us as [|u us IH]; intros cs; [done|].
  cbn [in_chat fmap list_fmap]. rewrite handle_chat_updates_cons, handle_updates_cons.
  fold (in_chat chat us). rewrite IH. f_equal. f_equal.
  unfold handle_chat_update.
  destruct (handle_update (view chat cs) u) as [[conv ud] o].
  unfold view. cbn [stages session fst conversation user_data].
  destruct conv as [s|]; by rewrite ?lookup_insert_eq, ?lookup_delete_eq.
Qed.

Lemma reachable_alone_reachable b : reachable_alone b → reachable b.
Proof.
  intros [us <-]. exists (in_chat 0 us), 0.
  by rewrite handle_chat_updates_in_chat.
Qed.

Lemma reachable_named b : reachable b → named (user_data b).
Proof.
  revert b. apply (reachable_data_ind named); [apply named_clear | apply named_step].
Qed.

Lemma submit_step ud user :
  handle_update (mkBot (Some CONFIRM) ud) (text_msg user SUBMIT)
  = (mkBot (match ret (confirm_application SUBMIT ud) with
            | To s' => Some s' | END => None end)
       (data (confirm_application SUBMIT ud)),
     out (confirm_application SUBMIT ud)).
Proof. by text_step. Qed.

Lemma confirm_application_submit ud :
  confirm_application SUBMIT ud
  = match missing_fields ud with
    | _ :: _ =>
      mkResult END ud
        [reply_text
           (py "❌ Ошибка: отсутствуют некоторые данные. Пожалуйста, начните заново.")
           (Some get_start_markup)]
    | [] =>
      try_except ud (
        message ← admin_message ud;
        Returns (mkResult END clear (
          [send_message ADMIN_CHAT_ID message None]
          ++ admin_media ud
          ++ [reply_text
                (py "✅ Заявка отправлена! Мы свяжемся с вами в течение часа." ++
                 NL ++ NL ++ py "Для новой заявки нажмите /start")
                (Some ReplyKeyboardRemove)])))
    end.
Proof.
  unfold confirm_application.
  rewrite (bool_decide_eq_false_2 (SUBMIT = BACK)) by (vm_compute; discriminate).
  rewrite (bool_decide_eq_false_2 (SUBMIT = CANCEL_CONFIRM)) by (vm_compute; discriminate).
  by rewrite (bool_decide_eq_false_2 (SUBMIT ≠ SUBMIT)) by (intros H; by apply H).
Qed.

Lemma dispatched_submission m ud reply markup :
  dispatched ([send_message ADMIN_CHAT_ID m None] ++ admin_media ud
              ++ [reply_text reply markup])
  = [mkSubmission m (take 10 (default [] (photos ud))) ADMIN_CHAT_ID].
Proof. unfold admin_media. by destruct (photos ud) as [[|p ps]|]. Qed.

(** C4: in a session the bot can reach, on the confirmation screen with
    every required field present, the submit button sends the
    administrator exactly one submission; it carries the first ten stored
    photos, and its text contains the value of every required field, and
    the pickup address when the delivery is a pickup. *)
Theorem confirm_dispatches_one_submission b user :
  reachable b → conversation b = Some CONFIRM →
  missing_fields (user_data b) = [] →
  (get (user_data b) "delivery" = Some PICKUP →
   is_Some (get (user_data b) "pickup_address")) →
  ∃ sub,
    dispatched (handle_update b (text_msg user SUBMIT)).2 = [sub]
    ∧ recipientId sub = ADMIN_CHAT_ID
    ∧ imageRefs sub = take 10 (default [] (photos (user_data b)))
    ∧ length (imageRefs sub)
      = Nat.min (length (default [] (photos (user_data b)))) 10
    ∧ (∀ key, key ∈ required_fields →
         ∃ v, get (user_data b) key = Some v ∧ occurs_in v (summaryText sub))
    ∧ (get (user_data b) "delivery" = Some PICKUP →
       ∃ a, get (user_data b) "pickup_address" = Some a
            ∧ occurs_in a (summaryText sub)).
Proof.
  intros Hr Hc Hm Hp. pose proof (reachable_named b Hr) as Hn.
  destruct b as [conv ud]. cbn [conversation user_data] in *. subst conv.
  assert (is_Some (get ud "user_name")) as Hu.
  { apply Hn, missing_fields_nil; [done|]. apply list_elem_of_here. }
  destruct (admin_message_present ud Hm Hu) as (m & Hmsg & Hreq & Hpick).
  rewrite submit_step, confirm_application_submit, Hm, Hmsg.
  cbn [mbind outcome_bind try_except out snd].
  rewrite dispatched_submission.
  eexists. split; [reflexivity|]. cbn [recipientId imageRefs summaryText].
  split; [done|]. split; [done|]. split; [rewrite length_take; lia|].
  split; [done|]. intros Hd. destruct (Hp Hd) as [a Ha].
  exists a. split; [done|]. by apply Hpick.
Qed.

(** The sample listing, submitted. *)
Lemma confirm_dispatches_one_submission_witness :
  ∃ sub,
    dispatched (handle_update at_confirm (text_msg ann SUBMIT)).2 = [sub]
    ∧ recipientId sub = ADMIN_CHAT_ID
    ∧ imageRefs sub = take 10 (default [] (photos (user_data at_confirm)))
    ∧ length (imageRefs sub)
      = Nat.min (length (default [] (photos (user_data at_confirm)))) 10
    ∧ (∀ key, key ∈ required_fields →
         ∃ v, get (user_data at_confirm) key = Some v
              ∧ occurs_in v (summaryText sub))
    ∧ (get (user_data at_confirm) "delivery" = Some PICKUP →
       ∃ a, get (user_data at_confirm) "pickup_address" = Some a
            ∧ occurs_in a (summaryText sub)).
Proof.
  apply (confirm_dispatches_one_submission at_confirm ann).
  - apply reachable_alone_reachable. exists to_confirm. unfold at_confirm.
    reflexivity.
  - vm_compute. reflexivity.
  - vm_compute. reflexivity.
  - intros _. vm_compute. by eexists.
Defined.

(** C10: submitting with a required field missing ends the conversation
    with an error notice, sends nothing to the administrator and leaves
    the session's data in place; cancelling and a successful submission
    both leave an empty session. *)
Theorem incomplete_confirm_keeps_fields ud user :
  missing_fields ud ≠ [] →
  handle_update (mkBot (Some CONFIRM) ud) (text_msg user SUBMIT)
  = (mkBot None ud,
     [reply_text
        (py "❌ Ошибка: отсутствуют некоторые данные. Пожалуйста, начните заново.")
        (Some get_start_markup)])
  ∧ dispatched (handle_update (mkBot (Some CONFIRM) ud) (text_msg user SUBMIT)).2 = []
  ∧ (handle_update (mkBot (Some CONFIRM) ud) (text_msg user CANCEL_CONFIRM)).1
    = initial
  ∧ ∀ ud', missing_fields ud' = [] → is_Some (get ud' "user_name") →
      (handle_update (mkBot (Some CONFIRM) ud') (text_msg user SUBMIT)).1 = initial.
Proof.
  intros Hm.
  assert (handle_update (mkBot (Some CONFIRM) ud) (text_msg user SUBMIT)
          = (mkBot None ud,
             [reply_text
                (py "❌ Ошибка: отсутствуют некоторые данные. Пожалуйста, начните заново.")
                (Some get_start_markup)])) as Hbad.
  { rewrite submit_step, confirm_application_submit.
    by destruct (missing_fields ud). }
  split; [exact Hbad|]. split; [by rewrite Hbad|]. split.
  - vm_compute. reflexivity.
  - intros ud' Hm' Hu.
    destruct (admin_message_present ud' Hm' Hu) as (m & Hmsg & _).
    by rewrite submit_step, confirm_application_submit, Hm', Hmsg.
Qed.

(** A session that holds a city only. *)
Lemma incomplete_confirm_keeps_fields_witness :
  handle_update (mkBot (Some CONFIRM) (setitem "city" (py "Town") clear))
    (text_msg ann SUBMIT)
  = (mkBot None (setitem "city" (py "Town") clear),
     [reply_text
        (py "❌ Ошибка: отсутствуют некоторые данные. Пожалуйста, начните заново.")
        (Some get_start_markup)]).
Proof.
  apply (incomplete_confirm_keeps_fields (setitem "city" (py "Town") clear) ann).
  vm_compute. discriminate.
Defined.

Lemma handle_photos_step u ud :
  step GET_PHOTOS ud (ret (handle_photos u ud)) (data (handle_photos u ud)).
Proof.
  unfold handle_photos.
  destruct (text u) as [[|c t]|].
  2:{ case_bool_decide; [by apply (step_back GET_PHOTOS ud GET_ITEM_NAME)|].
      case_bool_decide; [apply step_cancel|].
      case_bool_decide; [|apply step_stay].
      destruct (photos ud) as [[|p ps]|] eqn:Hp; cbn [default from_option id len length N.of_nat N.ltb N.compare];
        try apply step_stay. 
      case_match; [apply step_stay|]. by eapply step_photos_done. }
  all: destruct (last (photo u)) as [file_id|]; [|apply step_stay].
  all: destruct (photos ud) as [stored|] eqn:Hs;
    cbn [default from_option id photos set_photos];
    rewrite ?Hs; cbn [default from_option id];
    case_bool_decide as Hin; cbn [ret data].
  all: first
    [ apply step_stay
    | exfalso; apply Hin, not_elem_of_nil
    | exfalso; apply Hin; intros H; by apply elem_of_nil in H
    | by apply elem_of_nil in Hin
    | change (set_photos ([] ++ [file_id]) (set_photos [] ud))
        with (set_photos (default [] None ++ [file_id]) ud);
      rewrite <- Hs; apply step_photo; by rewrite Hs
    | change stored with (default [] (Some stored));
      rewrite <- Hs; apply step_photo; by rewrite Hs ].
Qed.

Lemma handle_contacts_step text ud :
  step GET_CONTACTS ud (ret (handle_contacts text ud)) (data (handle_contacts text ud)).
Proof.
  unfold handle_contacts.
  case_bool_decide.
  { case_bool_decide as Hd; cbn [ret data].
    - apply (step_back GET_CONTACTS ud GET_PICKUP_ADDRESS).
      cbn [back_target]. by rewrite bool_decide_eq_true_2.
    - apply (step_back GET_CONTACTS ud GET_DELIVERY).
      cbn [back_target]. by rewrite bool_decide_eq_false_2. }
  case_bool_decide; [apply step_cancel|].
  destruct (validate_phone text) eqn:Hv; [|apply step_stay]. cbn [negb].
  repeat (match goal with
          | |- context [getitem ?u ?k] =>
            destruct (getitem u k); [|by apply step_contacts_failed]
          end; cbn [mbind outcome_bind]).
  by apply step_contacts.
Qed.

Lemma confirm_application_step text ud :
  step CONFIRM ud (ret (confirm_application text ud))
    (data (confirm_application text ud)).
Proof.
  unfold confirm_application.
  case_bool_decide; [by apply (step_back CONFIRM ud GET_CONTACTS)|].
  case_bool_decide; [apply step_cancel|].
  case_bool_decide; [apply step_stay|].
  destruct (missing_fields ud); [|apply step_failed].
  destruct (admin_message ud); [apply step_cancel | apply step_failed].
Qed.

(** Every handler moves as [step] says. *)
Lemma run_step s u ud :
  step s ud (ret (run (cb_state s) u ud)) (data (run (cb_state s) u ud)).
Proof.
  destruct s; cbn [run].
  - apply step_stay.
  - unfold handle_category. case_bool_decide; [apply step_cancel|].
    by apply step_category.
  - unfold handle_item_name.
    case_bool_decide; [by apply (step_back GET_ITEM_NAME ud CHOOSE_CATEGORY)|].
    case_bool_decide; [apply step_cancel|].
    destruct (validate_text _ _ _) eqn:Hv; [|apply step_stay].
    by apply step_item_name.
  - apply handle_photos_step.
  - unfold handle_description.
    case_bool_decide; [by apply (step_back GET_DESCRIPTION ud GET_PHOTOS)|].
    case_bool_decide; [apply step_cancel|].
    case_bool_decide; [apply step_description; left; reflexivity|].
    destruct (validate_text _ _ _) eqn:Hv; [|apply step_stay].
    apply step_description; right; exact Hv.
  - unfold handle_price.
    case_bool_decide; [by apply (step_back GET_PRICE ud GET_DESCRIPTION)|].
    case_bool_decide; [apply step_cancel|].
    destruct (validate_price _) as [[|]|e] eqn:Hv; cbn [mbind outcome_bind try_except negb].
    + by apply step_price.
    + apply step_stay.
    + apply step_failed.
  - unfold handle_city.
    case_bool_decide; [by apply (step_back GET_CITY ud GET_PRICE)|].
    case_bool_decide; [apply step_cancel|].
    destruct (validate_text _ _ _) eqn:Hv; [|apply step_stay].
    by apply step_city.
  - unfold handle_delivery.
    case_bool_decide; [by apply (step_back GET_DELIVERY ud GET_CITY)|].
    case_bool_decide; [apply step_cancel|].
    case_bool_decide as Hin; [|apply step_stay]. cbn [negb].
    case_bool_decide as Hp; [rewrite Hp; apply step_delivery_pickup|].
    apply elem_of_cons in Hin as [?|Hin]; [done|].
    apply list_elem_of_singleton in Hin as ->. apply step_delivery_other.
  - unfold handle_pickup_address.
    case_bool_decide; [by apply (step_back GET_PICKUP_ADDRESS ud GET_DELIVERY)|].
    case_bool_decide; [apply step_cancel|].
    destruct (validate_text _ _ _) eqn:Hv; [|apply step_stay].
    by apply step_pickup_address.
  - apply handle_contacts_step.
  - apply confirm_application_step.
Qed.

Lemma options_differ : DELIVERY ≠ PICKUP.
Proof. vm_compute. discriminate. Qed.

Ltac unfold_collected :=
  unfold collected, present, has_photo, pickup_known, get in *;
  cbn [earlier_keys after_photos after_pickup setitem set_photos pop_photos
       fields photos] in *;
  rewrite ?Forall_cons, ?Forall_nil in *.

Ltac solve_collected :=
  unfold_collected; rewrite ?lookup_insert_is_Some';
  intuition (eauto; try discriminate).

Lemma collected_back s ud target :
  back_target s ud = Some target → collected s ud →
  collected target (if bool_decide (s = GET_PHOTOS) then pop_photos ud else ud).
Proof.
  intros Ht Hc.
  destruct s; cbn [back_target] in Ht; try discriminate Ht;
    try (injection Ht as <-; cbn [bool_decide decide_rel State_eq_dec];
         solve_collected).
  case_bool_decide; injection Ht as <-; solve_collected.
Qed.

Lemma step_collected s ud r ud' :
  step s ud r ud' → collected s ud →
  match r with To s' => collected s' ud' | END => True end.
Proof.
  intros Hstep Hc. destruct Hstep; try done; [by apply collected_back|..].
  all: solve_collected.
  - match goal with
    | H : <[_:=_]> _ !! _ = Some PICKUP |- _ =>
      rewrite lookup_insert_eq in H; pose proof options_differ; congruence
    end.
  - match goal with
    | H : <[_:=_]> _ !! _ = Some PICKUP |- _ =>
      rewrite lookup_insert_ne in H by done
    end.
    right. eauto.
Qed.

Lemma collected_entry ud : collected CHOOSE_CATEGORY ud.
Proof. repeat split; try done. apply Forall_nil_2. Qed.

Lemma collected_step b u : collected_at b → collected_at (handle_update b u).1.
Proof.
  destruct b as [[s|] ud]; unfold collected_at, handle_update, select;
    cbn [conversation user_data].
  - intros Hc. destruct (is_command "start" u); [apply collected_entry|].
    destruct (state_filter s u).
    { cbn [fst conversation user_data].
      pose proof (step_collected _ _ _ _ (run_step s u ud) Hc) as H.
      by destruct (ret (run (cb_state s) u ud)). }
    destruct (is_command "cancel" u); [done|].
    by destruct (filters_Regex_cancel u).
  - intros _. destruct (is_command "start" u); [apply collected_entry | done].
Qed.

(** An invariant of single updates, stage included, holds in every
    session of a user who writes in one chat only. *)
Lemma reachable_alone_ind (P : Bot → Prop) :
  P initial → (∀ b u, P b → P (handle_update b u).1) →
  ∀ b, reachable_alone b → P b.
Proof.
  intros H0 Hstep b [us <-].
  assert (∀ b0, P b0 → P (handle_updates b0 us).1) as H.
  { induction us as [|u us IH]; intros b0 Hb; [done|].
    rewrite handle_updates_cons. by apply IH, Hstep. }
  by apply H.
Qed.

Lemma reachable_collected_at b : reachable_alone b → collected_at b.
Proof. apply reachable_alone_ind; [done | apply collected_step]. Qed.

Lemma collected_at_stage b s :
  collected_at b → conversation b = Some s → collected s (user_data b).
Proof. unfold collected_at. intros H Hs. by rewrite Hs in H. Qed.

(** In a session of a user who writes to the bot in one chat only, a
    conversation at a stage holds every key the earlier stages write; past
    the photo stage it holds at least one photo, and from the contacts
    stage on a pickup has its address. *)
Theorem reachable_collected b s :
  reachable_alone b → conversation b = Some s → collected s (user_data b).
Proof.
  intros Hr Hs. by apply collected_at_stage; [apply reachable_collected_at|].
Qed.

(** ** The stage graph *)

Lemma step_moves s ud r ud' s' :
  step s ud r ud' → r = To s' →
  s' = s ∨ back_target s ud = Some s' ∨ s' ∈ forward_targets s.
Proof.
  intros Hstep Hr. destruct Hstep; try discriminate Hr; injection Hr as <-;
    cbn [forward_targets]; first
    [ by left
    | right; by left
    | right; right; apply list_elem_of_here
    | right; right; apply list_elem_of_further, list_elem_of_here ].
Qed.

(** One update leaves the conversation at its stage, or moves it to the
    first stage, to the stage's backward target or to one of its forward
    targets: no stage is skipped. *)
Theorem update_moves_one_edge s ud u s' :
  conversation (handle_update (mkBot (Some s) ud) u).1 = Some s' →
  s' = s ∨ s' = CHOOSE_CATEGORY ∨ back_target s ud = Some s'
  ∨ s' ∈ forward_targets s.
Proof.
  unfold handle_update, select. cbn [conversation user_data].
  destruct (is_command "start" u).
  { cbn [fst conversation run start ret]. intros [= <-]. right; by left. }
  destruct (state_filter s u).
  { cbn [fst conversation]. intros H.
    destruct (ret (run (cb_state s) u ud)) as [s0|] eqn:Hr; [|done].
    injection H as ->.
    destruct (step_moves _ _ _ _ s' (run_step s u ud) Hr) as [?|[?|?]]; auto. }
  destruct (is_command "cancel" u); [done|].
  destruct (filters_Regex_cancel u); [done|].
  cbn [fst conversation]. intros [= <-]. by left.
Qed.

(** The delivery option, sent at the delivery choice. *)
Lemma update_moves_one_edge_witness :
  GET_CONTACTS = GET_DELIVERY ∨ GET_CONTACTS = CHOOSE_CATEGORY
  ∨ back_target GET_DELIVERY clear = Some GET_CONTACTS
  ∨ GET_CONTACTS ∈ forward_targets GET_DELIVERY.
Proof.
  apply (update_moves_one_edge GET_DELIVERY clear (text_msg ann DELIVERY)).
  vm_compute. reflexivity.
Defined.

(** ** Stored values *)

Lemma get_setitem key v ud key' :
  get (setitem key v ud) key' = if decide (key = key') then Some v else get ud key'.
Proof. unfold get, setitem. cbn [fields]. apply lookup_insert. Qed.

Lemma stored_ok_clear : stored_ok clear.
Proof.
  intros key v. unfold get. cbn [clear fields]. by rewrite lookup_empty.
Qed.

Lemma stored_ok_setitem key v ud :
  field_ok key v → stored_ok ud → stored_ok (setitem key v ud).
Proof.
  intros Hv Hud key' v'. rewrite get_setitem. case_decide as Hk.
  - subst key'. by intros [= <-].
  - apply Hud.
Qed.

Lemma no_info_ok : validate_text (py "Нет информации") 2 500 = true.
Proof. vm_compute. reflexivity. Qed.

Lemma step_stored_ok s ud r ud' : step s ud r ud' → stored_ok ud → stored_ok ud'.
Proof.
  intros Hstep Hud. destruct Hstep; try exact Hud; try apply stored_ok_clear.
  - by destruct (bool_decide (s = GET_PHOTOS)).
  - by apply stored_ok_setitem.
  - change (stored_ok (setitem "user_name" sender (setitem "item_name" t ud))).
    by repeat apply stored_ok_setitem.
  - apply stored_ok_setitem; [|done]. unfold field_ok.
    rewrite decide_False by done. rewrite decide_True by done.
    destruct H as [->|H]; [apply no_info_ok | done].
  - by apply stored_ok_setitem.
  - by apply stored_ok_setitem.
  - apply stored_ok_setitem; [by left | done].
  - apply stored_ok_setitem; [by right | done].
  - by apply stored_ok_setitem.
  - by apply stored_ok_setitem.
  - by apply stored_ok_setitem.
Qed.

Lemma handle_update_data_cases b u :
  user_data (handle_update b u).1 = user_data b
  ∨ user_data (handle_update b u).1 = clear
  ∨ ∃ s r, conversation b = Some s
           ∧ step s (user_data b) r (user_data (handle_update b u).1).
Proof.
  destruct b as [[s|] ud]; unfold handle_update, select;
    cbn [conversation user_data].
  - destruct (is_command "start" u); [right; by left|].
    destruct (state_filter s u).
    { right; right. exists s, (ret (run (cb_state s) u ud)).
      split; [done|]. apply run_step. }
    destruct (is_command "cancel" u); [right; by left|].
    destruct (filters_Regex_cancel u); [right; by left | by left].
  - destruct (is_command "start" u); [right; by left | by left].
Qed.

Lemma stored_ok_step b u :
  stored_ok (user_data b) → stored_ok (user_data (handle_update b u).1).
Proof.
  intros H. destruct (handle_update_data_cases b u) as [E|[E|(s & r & _ & Hs)]].
  - by rewrite E.
  - rewrite E. apply stored_ok_clear.
  - by eapply step_stored_ok.
Qed.

(** In a session the bot can reach, every stored value passes the check
    its stage makes: the price is accepted by [validate_price], the phone
    by [validate_phone], the delivery is one of the two options, and the
    texts are within the bounds their call sites give. *)
Theorem reachable_stored_ok b key v :
  reachable b → get (user_data b) key = Some v → field_ok key v.
Proof.
  intros Hr. revert key v. change (stored_ok (user_data b)).
  revert b Hr. apply (reachable_data_ind stored_ok).
  - apply stored_ok_clear.
  - apply stored_ok_step.
Qed.

(** ** Photos *)

Lemma step_photos_distinct s ud r ud' :
  step s ud r ud' → photos_distinct ud → photos_distinct ud'.
Proof.
  intros Hstep Hud. destruct Hstep; try done; try (by intros l [=]).
  - destruct (bool_decide (s = GET_PHOTOS)); [by intros l [=] | done].
  - intros l [= <-]. apply NoDup_nil_2.
  - intros l [= <-]. apply NoDup_app. split; [|split].
    + destruct (photos ud) as [l0|] eqn:Hl; [by apply Hud | apply NoDup_nil_2].
    + intros x Hx ->%list_elem_of_singleton. done.
    + apply NoDup_singleton.
Qed.

Lemma photos_distinct_step b u :
  photos_distinct (user_data b) →
  photos_distinct (user_data (handle_update b u).1).
Proof.
  intros H.
  destruct (handle_update_data_cases b u) as [E|[E|(s & r & _ & Hs)]].
  - by rewrite E.
  - rewrite E. by intros l [=].
  - by eapply step_photos_distinct.
Qed.

(** In a session the bot can reach, no file id is stored twice. *)
Theorem reachable_photos_distinct b l :
  reachable b → photos (user_data b) = Some l → NoDup l.
Proof.
  intros Hr. revert l. change (photos_distinct (user_data b)).
  revert b Hr. apply (reachable_data_ind photos_distinct).
  - by intros l [=].
  - apply photos_distinct_step.
Qed.

(** ** Submission in one chat *)

Lemma has_key_present ud key :
  key ≠ "photos"%string → is_Some (get ud key) → has_key ud key = true.
Proof.
  intros Hk [v Hv]. unfold has_key, get in *.
  rewrite bool_decide_eq_false_2 by done.
  apply bool_decide_eq_true_2. by rewrite Hv.
Qed.

Lemma collected_confirm ud :
  collected CONFIRM ud →
  missing_fields ud = [] ∧ is_Some (get ud "user_name") ∧ has_photo ud.
Proof.
  intros (_ & Hk & Hph & _). unfold present in Hk. cbn [earlier_keys] in Hk.
  rewrite !Forall_cons in Hk.
  destruct Hk as (Hc & Hi & Hu & _ & Hp & Hci & Hd & Hco & _).
  split; [|split; [done | by apply Hph]].
  unfold missing_fields, required_fields. cbn [List.filter].
  by rewrite !has_key_present.
Qed.

(** From every confirmation screen of a user who writes to the bot in one
    chat only, the submit button sends the administrator exactly one
    submission with one to ten photos and leaves no conversation and an
    empty session: the branch for missing fields and the [KeyError] are
    never taken. *)
Theorem reachable_submit_dispatches b user :
  reachable_alone b → conversation b = Some CONFIRM →
  ∃ sub,
    (handle_update b (text_msg user SUBMIT)).1 = initial
    ∧ dispatched (handle_update b (text_msg user SUBMIT)).2 = [sub]
    ∧ (1 ≤ length (imageRefs sub) ≤ 10)%nat.
Proof.
  intros Hr Hc.
  destruct (collected_confirm _
              (collected_at_stage b CONFIRM (reachable_collected_at b Hr) Hc))
    as (Hm & Hu & p & ps & Hp).
  destruct b as [conv ud]. cbn [conversation user_data] in *. subst conv.
  destruct (admin_message_present ud Hm Hu) as (m & Hmsg & _).
  rewrite submit_step, confirm_application_submit, Hm, Hmsg.
  cbn [mbind outcome_bind try_except out data ret fst snd].
  rewrite dispatched_submission, Hp. eexists. split; [done|]. split; [done|].
  cbn [imageRefs default from_option id]. rewrite length_take.
  cbn [length]. lia.
Qed.

(** The sample listing, submitted. *)
Lemma reachable_submit_dispatches_witness :
  ∃ sub,
    (handle_update at_confirm (text_msg ann SUBMIT)).1 = initial
    ∧ dispatched (handle_update at_confirm (text_msg ann SUBMIT)).2 = [sub]
    ∧ (1 ≤ length (imageRefs sub) ≤ 10)%nat.
Proof.
  apply (reachable_submit_dispatches at_confirm ann).
  - exists to_confirm. unfold at_confirm. reflexivity.
  - vm_compute. reflexivity.
Defined.

(** ** The confirmation screen *)

Lemma getitem_setitem_ne key v ud key' :
  key ≠ key' → getitem (setitem key v ud) key' = getitem ud key'.
Proof.
  intros Hk. unfold getitem, setitem. cbn [fields]. by rewrite lookup_insert_ne.
Qed.

Lemma getitem_setitem_eq key v ud : getitem (setitem key v ud) key = Returns v.
Proof. unfold getitem, setitem. cbn [fields]. by rewrite lookup_insert_eq. Qed.

Lemma valid_phone_is_text t :
  validate_phone t = true → t ≠ [] ∧ t ≠ BACK ∧ t ≠ CANCEL.
Proof.
  intros H. repeat split; intros ->; revert H; vm_compute; discriminate.
Qed.

(** At every contacts stage of a user who writes to the bot in one chat
    only, a valid phone number is stored and answered by the confirmation
    screen, whose summary shows it: the summary never fails on a missing
    key. *)
Theorem reachable_contacts_confirm b user t :
  reachable_alone b → conversation b = Some GET_CONTACTS →
  validate_phone t = true →
  ∃ summary,
    handle_update b (text_msg user t)
    = (mkBot (Some CONFIRM) (setitem "contacts" t (user_data b)),
       [reply_text summary (Some get_confirm_markup)])
    ∧ occurs_in t summary.
Proof.
  intros Hr Hc Hv.
  destruct (collected_at_stage b GET_CONTACTS (reachable_collected_at b Hr) Hc)
    as (_ & Hk & _).
  destruct (valid_phone_is_text t Hv) as (Hne & Hb & Hca).
  destruct b as [conv ud]. cbn [conversation user_data] in *. subst conv.
  unfold present in Hk. cbn [earlier_keys] in Hk. rewrite !Forall_cons in Hk.
  destruct Hk as ([c Hc] & [i Hi] & [n Hn] & _ & [p Hp] & [ci Hci] & [d Hd] & _).
  text_step. unfold handle_contacts.
  rewrite (bool_decide_eq_false_2 (t = BACK)) by done.
  rewrite (bool_decide_eq_false_2 (t = CANCEL)) by done.
  rewrite Hv. cbn [negb].
  rewrite (getitem_setitem_ne _ _ _ "user_name"), (getitem_setitem_ne _ _ _ "item_name"),
    (getitem_setitem_ne _ _ _ "category"), (getitem_setitem_ne _ _ _ "price"),
    (getitem_setitem_ne _ _ _ "city"), (getitem_setitem_ne _ _ _ "delivery") by done.
  rewrite getitem_setitem_eq.
  rewrite (getitem_present _ _ _ Hc), (getitem_present _ _ _ Hi),
    (getitem_present _ _ _ Hn), (getitem_present _ _ _ Hp),
    (getitem_present _ _ _ Hci), (getitem_present _ _ _ Hd).
  cbn [mbind outcome_bind try_except ret data out].
  eexists. split; [reflexivity|].
  eapply occurs_in_join; [|apply (occurs_in_mid (NL ++ py "📞 *Контакты:* ") t (NL ++ NL))].
  rewrite <- !app_assoc.
  apply elem_of_app; right. apply elem_of_app; right.
  apply elem_of_app; left. apply list_elem_of_here.
Qed.

(** The sample listing, at its phone number. *)
Lemma reachable_contacts_confirm_witness :
  ∃ summary,
    handle_update at_contacts (text_msg ann (py "+79161234567"))
    = (mkBot (Some CONFIRM)
         (setitem "contacts" (py "+79161234567") (user_data at_contacts)),
       [reply_text summary (Some get_confirm_markup)])
    ∧ occurs_in (py "+79161234567") summary.
Proof.
  apply (reachable_contacts_confirm at_contacts ann (py "+79161234567")).
  - exists (to_delivery ++ [text_msg ann PICKUP; text_msg ann (py "1 Main St")]).
    unfold at_contacts. reflexivity.
  - vm_compute. reflexivity.
  - vm_compute. reflexivity.
Defined.

(** ** Photos, once more *)

(** A photo whose file id is already stored changes nothing and gets no
    reply. *)
Theorem duplicate_photo_ignored ud user file_id stored :
  photos ud = Some stored → file_id ∈ stored →
  handle_update (mkBot (Some GET_PHOTOS) ud) (photo_msg user file_id)
  = (mkBot (Some GET_PHOTOS) ud, []).
Proof.
  intros Hp Hin. rewrite handle_update_stage by done.
  cbn [run]. unfold handle_photos. cbn [text photo photo_msg last].
  rewrite Hp. cbn [default from_option id photos]. rewrite Hp.
  cbn [default from_option id].
  rewrite bool_decide_eq_false_2 by (intros H; by apply H).
  done.
Qed.

(** The second of two stored photos, sent again. *)
Lemma duplicate_photo_ignored_witness :
  handle_update (mkBot (Some GET_PHOTOS) (set_photos [py "A"; py "B"] clear))
    (photo_msg ann (py "B"))
  = (mkBot (Some GET_PHOTOS) (set_photos [py "A"; py "B"] clear), []).
Proof.
  apply (duplicate_photo_ignored _ ann (py "B") [py "A"; py "B"]).
  - reflexivity.
  - apply list_elem_of_further, list_elem_of_here.
Defined.

(** ** Who is written to *)

Ltac quiet :=
  cbn [mbind outcome_bind negb];
  try unfold try_except; try unfold error_handler; try unfold cancel;
  cbn [out];
  repeat first
    [ apply Forall_nil_2
    | apply Forall_cons_2;
      [first [ reflexivity
             | match goal with
               | |- to_admin (if ?c then _ else _) = false => by destruct c
               end ]|] ].

Lemma handle_photos_quiet u ud :
  Forall (λ a, to_admin a = false) (out (handle_photos u ud)).
Proof.
  unfold handle_photos.
  destruct (text u) as [[|c t]|].
  2:{ repeat case_bool_decide; repeat case_match; quiet. }
  all: destruct (last (photo u)); [|quiet]; case_bool_decide; quiet.
Qed.

Lemma try_except_quiet ud body :
  (∀ r, body = Returns r → Forall (λ a, to_admin a = false) (out r)) →
  Forall (λ a, to_admin a = false) (out (try_except ud body)).
Proof. intros H. destruct body as [r|e]; [by apply H | quiet]. Qed.

Lemma handle_contacts_quiet text ud :
  Forall (λ a, to_admin a = false) (out (handle_contacts text ud)).
Proof.
  unfold handle_contacts.
  case_bool_decide; [case_bool_decide; quiet|].
  case_bool_decide; [quiet|].
  destruct (validate_phone text); [|quiet]. cbn [negb].
  apply try_except_quiet. intros r.
  repeat (match goal with
          | |- context [getitem ?u ?k] => destruct (getitem u k); [|done]
          end; cbn [mbind outcome_bind]).
  intros [= <-]. quiet.
Qed.

Lemma run_quiet s u ud :
  (s = CONFIRM ∧ message_text u = SUBMIT)
  ∨ Forall (λ a, to_admin a = false) (out (run (cb_state s) u ud)).
Proof.
  destruct s; cbn [run];
    try (right; first [apply handle_photos_quiet | apply handle_contacts_quiet]).
  - right. quiet.
  - right. unfold handle_category. case_bool_decide; quiet.
  - right. unfold handle_item_name.
    repeat case_bool_decide; try quiet. case_match; quiet.
  - right. unfold handle_description.
    repeat case_bool_decide; try quiet. case_match; quiet.
  - right. unfold handle_price.
    repeat case_bool_decide; try quiet.
    destruct (validate_price _) as [[|]|]; quiet.
  - right. unfold handle_city.
    repeat case_bool_decide; try quiet. case_match; quiet.
  - right. unfold handle_delivery. repeat case_bool_decide; quiet.
  - right. unfold handle_pickup_address.
    repeat case_bool_decide; try quiet. case_match; quiet.
  - unfold confirm_application.
    case_bool_decide; [right; quiet|].
    case_bool_decide; [right; quiet|].
    case_bool_decide as Hs; [right; quiet|].
    left. split; [done|]. by destruct (decide (message_text u = SUBMIT)).
Qed.

(** Nothing is written to the administrator's chat except by the submit
    button on the confirmation screen. *)
Theorem only_submit_reaches_admin b u a :
  a ∈ (handle_update b u).2 → to_admin a = true →
  conversation b = Some CONFIRM ∧ text u = Some SUBMIT.
Proof.
  intros Ha Hadm. destruct b as [[s|] ud]; unfold handle_update, select in Ha;
    cbn [conversation user_data] in *.
  2:{ destruct (is_command "start" u); cbn [snd run start out] in Ha.
      - apply list_elem_of_singleton in Ha. by subst a.
      - by apply elem_of_nil in Ha. }
  destruct (is_command "start" u).
  { cbn [snd run start out] in Ha. apply list_elem_of_singleton in Ha. by subst a. }
  destruct (state_filter s u) eqn:Hf.
  - cbn [snd] in Ha. destruct (run_quiet s u ud) as [[-> Hs]|Hq].
    + split; [done|]. cbn [state_filter] in Hf. unfold filters_TEXT in Hf.
      unfold message_text in Hs. destruct (text u) as [[|c t]|]; try done.
      cbn [default from_option id] in Hs. by rewrite Hs.
    + rewrite Forall_forall in Hq. rewrite (Hq a Ha) in Hadm. done.
  - destruct (is_command "cancel" u); cbn [snd run cancel out] in Ha.
    { apply list_elem_of_singleton in Ha. by subst a. }
    destruct (filters_Regex_cancel u); cbn [snd run cancel out] in Ha.
    { apply list_elem_of_singleton in Ha. by subst a. }
    by apply elem_of_nil in Ha.
Qed.

(** The media group of the sample listing. *)
Lemma only_submit_reaches_admin_witness :
  conversation at_confirm = Some CONFIRM
  ∧ text (text_msg ann SUBMIT) = Some SUBMIT.
Proof.
  apply (only_submit_reaches_admin at_confirm (text_msg ann SUBMIT)
           (send_media_group ADMIN_CHAT_ID [py "A"])).
  - vm_compute. apply list_elem_of_further, list_elem_of_here.
  - reflexivity.
Defined.

(** ** Commands *)

(** The start command, at any stage or outside a conversation, empties
    the session, greets the user by first name and asks for the
    category. *)
Theorem start_command_restarts b u :
  is_command "start" u = true →
  handle_update b u
  = (mkBot (Some CHOOSE_CATEGORY) clear,
     [reply_text
        (py "👋 Здравствуйте, " ++ first_name (effective_user u) ++ py "!" ++ NL ++
         py "Выберите категорию товара:")
        (Some get_category_markup)]).
Proof. intros H. unfold handle_update, select. by rewrite H. Qed.

(** The start command on the confirmation screen. *)
Lemma start_command_restarts_witness :
  handle_update at_confirm (command_msg ann "start")
  = (mkBot (Some CHOOSE_CATEGORY) clear,
     [reply_text
        (py "👋 Здравствуйте, " ++ first_name ann ++ py "!" ++ NL ++
         py "Выберите категорию товара:")
        (Some get_category_markup)]).
Proof.
  apply (start_command_restarts at_confirm (command_msg ann "start")).
  vm_compute. reflexivity.
Defined.

(** The cancel command ends the conversation and empties the session at
    every stage but the photo stage, whose handler takes commands as text
    and gives it no answer. *)
Theorem cancel_command_except_photos s ud user :
  handle_update (mkBot (Some s) ud) (command_msg user "cancel")
  = if bool_decide (s = GET_PHOTOS)
    then (mkBot (Some GET_PHOTOS) ud, [])
    else (initial, out (cancel ud)).
Proof. destruct s; vm_compute; reflexivity. Qed.

(** Inside a conversation the fallbacks only get messages marked as
    commands: a plain text, the cancel texts included, is always taken by
    the handler of the stage. *)
Theorem fallbacks_take_commands_only s u :
  s ≠ START → select (Some s) u = Some cb_cancel → filters_COMMAND u = true.
Proof.
  intros Hs. unfold select.
  destruct (is_command "start" u); [done|].
  destruct (state_filter s u) eqn:Hf; [done|].
  unfold is_command, filters_Regex_cancel, filters_COMMAND.
  case_bool_decide as Hc; [by rewrite Hc|].
  destruct (command u) eqn:Hcmd; [done|].
  assert (filters_TEXT u = false) as Ht.
  { destruct s; cbn [state_filter] in Hf; try done;
      try unfold filters_COMMAND in Hf; rewrite ?Hcmd in Hf;
      by destruct (filters_TEXT u), (filters_PHOTO u). }
  unfold filters_TEXT in Ht. by destruct (text u) as [[|c t]|].
Qed.

(** The cancel command at the price stage. *)
Lemma fallbacks_take_commands_only_witness :
  filters_COMMAND (command_msg ann "cancel") = true.
Proof.
  apply (fallbacks_take_commands_only GET_PRICE (command_msg ann "cancel")).
  - discriminate.
  - vm_compute. reflexivity.
Defined.

(** ** Prices that are digits without being numbers *)

Lemma int_digits_raises s : ∀ acc,
  ¬ all_decimal s → int_digits acc s = Raises ValueError.
Proof.
  induction s as [|c r IH]; intros acc Hs.
  - destruct Hs. apply Forall_nil_2.
  - cbn [int_digits]. destruct (decimal_value c) as [d|] eqn:Hd; [|done].
    apply IH. intros Hr. apply Hs. apply Forall_cons. split; [by eexists | done].
Qed.

Lemma validate_price_raises s :
  validate_price s = Raises ValueError
  ↔ isdigit s = true ∧ (¬ all_decimal s ∨ int_max_str_digits < len s).
Proof.
  unfold validate_price, int. split.
  - destruct (isdigit s); [|done].
    destruct (N.ltb_spec int_max_str_digits (len s)) as [Hl|Hl];
      [intros _; split; [done | by right]|].
    destruct (int_digits 0 s) as [n|e] eqn:Hn; [done|]. intros _.
    split; [done|]. left. intros Hs.
    by rewrite (int_digits_all_decimal s 0 Hs) in Hn.
  - intros [-> [Hs|Hl]].
    + destruct (int_max_str_digits <? len s); [done|].
      by rewrite (int_digits_raises s 0 Hs).
    + by rewrite (proj2 (N.ltb_lt _ _) Hl).
Qed.

Lemma isdigit_is_text t : isdigit t = true → t ≠ [] ∧ t ≠ BACK ∧ t ≠ CANCEL.
Proof.
  intros H. repeat split; intros ->; revert H; vm_compute; discriminate.
Qed.

(** A price made of digit characters of which one is not a decimal digit
    (a superscript two, say) passes [isdigit] and makes [int] raise: the
    conversation ends with the general error message, and the session
    keeps its data. *)
Theorem undecimal_price_ends_conversation ud user t :
  isdigit t = true → ¬ all_decimal t →
  handle_update (mkBot (Some GET_PRICE) ud) (text_msg user t)
  = (mkBot None ud, error_handler).
Proof.
  intros Hd Hs. destruct (isdigit_is_text t Hd) as (Hne & Hb & Hc).
  text_step. unfold handle_price.
  rewrite (bool_decide_eq_false_2 (t = BACK)) by done.
  rewrite (bool_decide_eq_false_2 (t = CANCEL)) by done.
  assert (validate_price t = Raises ValueError) as ->
    by (apply validate_price_raises; split; [done | by left]).
  done.
Qed.

(** A five followed by a superscript two. *)
Lemma undecimal_price_ends_conversation_witness :
  handle_update (mkBot (Some GET_PRICE) (setitem "category" (py "X") clear))
    (text_msg ann (py "5²"))
  = (mkBot None (setitem "category" (py "X") clear), error_handler).
Proof.
  apply (undecimal_price_ends_conversation _ ann (py "5²")).
  - vm_compute. reflexivity.
  - intros H. apply Forall_cons in H as [_ H]. apply Forall_cons in H as [[d H] _].
    revert H. vm_compute. discriminate.
Defined.

(** ** The photo stage and text *)

(** The Next button of the photo stage moves on to the description when
    at least one photo is stored; with an empty list, or no list at all,
    it is answered by the request for a photo and the stage stays. *)
Theorem next_needs_a_photo ud user :
  handle_update (mkBot (Some GET_PHOTOS) ud) (text_msg user NEXT)
  = match photos ud with
    | Some (_ :: _) =>
      (mkBot (Some GET_DESCRIPTION) ud,
       [reply_text
          (py "📝 Опишите товар (год, материал, особенности) или нажмите 'Нет информации'")
          (Some get_description_markup)])
    | _ =>
      (mkBot (Some GET_PHOTOS) ud,
       [reply_text (py "❌ Нужно отправить хотя бы 1 фото!") None])
    end.
Proof.
  text_step. unfold handle_photos. cbn [text text_msg].
  destruct NEXT as [|c t] eqn:Hn; [by vm_compute in Hn|]. rewrite <- Hn.
  rewrite (bool_decide_eq_false_2 (NEXT = BACK)) by (vm_compute; discriminate).
  rewrite (bool_decide_eq_false_2 (NEXT = CANCEL)) by (vm_compute; discriminate).
  rewrite (bool_decide_eq_true_2 (NEXT = NEXT)) by done.
  destruct (photos ud) as [[|p ps]|]; cbn [default from_option id]; try done.
  assert ((len (p :: ps) <? 1) = false) as ->; [|done].
  apply N.ltb_ge. unfold len. cbn [length]. lia.
Qed.

(** Any other text at the photo stage is ignored without a reply. *)
Theorem photo_stage_ignores_text ud user t :
  t ≠ [] → t ≠ BACK → t ≠ CANCEL → t ≠ NEXT →
  handle_update (mkBot (Some GET_PHOTOS) ud) (text_msg user t)
  = (mkBot (Some GET_PHOTOS) ud, []).
Proof.
  intros Hne Hb Hc Hn. text_step. unfold handle_photos. cbn [text text_msg].
  destruct t as [|c t]; [done|].
  rewrite (bool_decide_eq_false_2 (c :: t = BACK)) by done.
  rewrite (bool_decide_eq_false_2 (c :: t = CANCEL)) by done.
  by rewrite (bool_decide_eq_false_2 (c :: t = NEXT)) by done.
Qed.

(** A greeting at the photo stage. *)
Lemma photo_stage_ignores_text_witness :
  handle_update (mkBot (Some GET_PHOTOS) clear) (text_msg ann (py "hello"))
  = (mkBot (Some GET_PHOTOS) clear, []).
Proof.
  apply (photo_stage_ignores_text clear ann (py "hello"));
    vm_compute; discriminate.
Defined.

(** ** Trimming *)

Lemma lstrip_blank s : blank s → lstrip s = [].
Proof.
  induction 1 as [|c r Hc _ IH]; [done|]. cbn [lstrip]. by rewrite Hc.
Qed.

Lemma lstrip_app_blank pre s : blank pre → lstrip (pre ++ s) = lstrip s.
Proof.
  induction 1 as [|c r Hc _ IH]; [done|]. cbn [app lstrip]. by rewrite Hc.
Qed.

Lemma lstrip_app s x :
  lstrip (s ++ x) = match lstrip s with [] => lstrip x | _ => lstrip s ++ x end.
Proof.
  induction s as [|c r IH]; [done|]. cbn [app lstrip].
  by destruct (isspace c).
Qed.

Lemma rstrip_app_blank s post : blank post → rstrip (s ++ post) = rstrip s.
Proof.
  intros Hp. unfold rstrip. rewrite rev_app_distr.
  rewrite lstrip_app_blank; [done|]. unfold blank. by apply Forall_rev.
Qed.

Lemma strip_padding pre s post :
  blank pre → blank post → strip (pre ++ s ++ post) = strip s.
Proof.
  intros Hpre Hpost. unfold strip. rewrite lstrip_app_blank by done.
  rewrite lstrip_app. destruct (lstrip s) as [|c r] eqn:Hs.
  - by rewrite lstrip_blank.
  - by rewrite rstrip_app_blank.
Qed.

(** Whitespace around a text does not count for [validate_text]. *)
Theorem validate_text_ignores_padding pre text post min_len max_len :
  blank pre → blank post →
  validate_text (pre ++ text ++ post) min_len max_len
  = validate_text text min_len max_len.
Proof. intros. unfold validate_text. by rewrite strip_padding. Qed.

(** Two spaces before, a newline after. *)
Lemma validate_text_ignores_padding_witness :
  validate_text (py "  " ++ py "ab" ++ NL) 2 50 = validate_text (py "ab") 2 50.
Proof.
  apply (validate_text_ignores_padding (py "  ") (py "ab") NL 2 50).
  - vm_compute. by repeat constructor.
  - vm_compute. by repeat constructor.
Defined.

(** A text of whitespace only is rejected whenever the lower bound is
    positive, as it is at every call site. *)
Theorem validate_text_rejects_blank text min_len max_len :
  blank text → 0 < min_len → validate_text text min_len max_len = false.
Proof.
  intros Hb Hm. unfold validate_text, strip. rewrite lstrip_blank by done.
  cbn. apply andb_false_iff. left. apply N.leb_gt. exact Hm.
Qed.

(** Three spaces. *)
Lemma validate_text_rejects_blank_witness :
  validate_text (py "   ") 2 200 = false.
Proof.
  apply (validate_text_rejects_blank (py "   ") 2 200).
  - vm_compute. by repeat constructor.
  - reflexivity.
Defined.

(** ** Phone numbers *)

Lemma ascii_digit_decimal c : 48 ≤ c ≤ 57 → isdecimal_char c = true.
Proof.
  intros [H1 H2]. unfold isdecimal_char, decimal_value, decimal_zeros.
  cbn [List.find].
  assert ((48 <=? c) && (c <? 48 + 10) = true) as ->; [|done].
  apply andb_true_iff. split; [by apply N.leb_le | apply N.ltb_lt; lia].
Qed.

Lemma ascii_digits_phone_chars ds : ascii_digits ds → forallb phone_char ds = true.
Proof.
  intros H. apply forallb_forall. intros c Hc.
  unfold ascii_digits in H. rewrite Forall_forall in H.
  unfold phone_char. rewrite ascii_digit_decimal; [done|].
  apply H. by apply list_elem_of_In.
Qed.

Lemma digits_have_no_plus ds :
  ascii_digits ds → match ds with 43 :: r => r | _ => ds end = ds.
Proof.
  intros H. destruct ds as [|c r]; [done|].
  apply Forall_cons in H as [[H1 H2] _].
  destruct c as [|p]; [done|].
  do 6 (destruct p as [p|p|]; try done); lia.
Qed.

(** Seven to fifteen ASCII digits are a valid phone number, with or
    without a plus sign in front. *)
Theorem validate_phone_accepts_digits ds :
  ascii_digits ds → (7 ≤ length ds ≤ 15)%nat →
  validate_phone ds = true ∧ validate_phone (43 :: ds) = true.
Proof.
  intros Hd Hl.
  assert (forallb phone_char ds
          && ((7 <=? len ds) && (len ds <=? 15)
              || (len ds =? 16) && bool_decide (last ds = Some 10)) = true) as H.
  { rewrite ascii_digits_phone_chars by done. cbn [andb].
    apply orb_true_iff. left. unfold len.
    apply andb_true_iff. split; apply N.leb_le; lia. }
  split; [|exact H].
  unfold validate_phone. by rewrite digits_have_no_plus.
Qed.

(** Ten digits. *)
Lemma validate_phone_accepts_digits_witness :
  validate_phone (py "9161234567") = true
  ∧ validate_phone (43 :: py "9161234567") = true.
Proof.
  apply (validate_phone_accepts_digits (py "9161234567")).
  - vm_compute. repeat constructor; discriminate.
  - vm_compute. lia.
Defined.

(** ** Back after a step forward *)

Lemma handle_updates_app b us u :
  (handle_updates b (us ++ [u])).1 = (handle_update (handle_updates b us).1 u).1.
Proof.
  revert b. induction us as [|u0 us IH]; intros b.
  - cbn [app]. rewrite handle_updates_cons. done.
  - cbn [app]. rewrite !handle_updates_cons. apply IH.
Qed.

Lemma reachable_alone_step b u :
  reachable_alone b → reachable_alone (handle_update b u).1.
Proof. intros [us <-]. exists (us ++ [u]). apply handle_updates_app. Qed.

Lemma step_pickup_chosen s ud r ud' :
  step s ud r ud' →
  (s = GET_PICKUP_ADDRESS → get ud "delivery" = Some PICKUP) →
  r = To GET_PICKUP_ADDRESS → get ud' "delivery" = Some PICKUP.
Proof.
  intros Hstep Hs Hr. destruct Hstep; try discriminate Hr.
  - injection Hr as ->. by apply Hs.
  - injection Hr as ->. destruct s; cbn [back_target] in H; try discriminate H.
    by case_bool_decide.
  - unfold get, setitem. cbn [fields]. by rewrite lookup_insert_eq.
Qed.

Lemma pickup_chosen_step b u : pickup_chosen b → pickup_chosen (handle_update b u).1.
Proof.
  destruct b as [[s|] ud]; unfold pickup_chosen, handle_update, select;
    cbn [conversation user_data]; intros Hb.
  - destruct (is_command "start" u); [done|].
    destruct (state_filter s u).
    { cbn [fst conversation user_data]. intros Hr.
      apply (step_pickup_chosen s ud _ _ (run_step s u ud)).
      - intros ->. by apply Hb.
      - by destruct (ret (run (cb_state s) u ud)) as [s0|]; [injection Hr as ->|]. }
    destruct (is_command "cancel" u); [done|].
    by destruct (filters_Regex_cancel u).
  - by destruct (is_command "start" u).
Qed.

Lemma reachable_pickup_chosen b : reachable_alone b → pickup_chosen b.
Proof. apply reachable_alone_ind; [done | apply pickup_chosen_step]. Qed.

Lemma back_step s ud user :
  is_Some (back_target s ud) →
  conversation (handle_update (mkBot (Some s) ud) (text_msg user BACK)).1
  = back_target s ud.
Proof.
  intros [target Ht].
  destruct s; cbn [back_target] in *; try discriminate Ht;
    try (vm_compute; reflexivity).
  text_step. unfold handle_contacts. rewrite bool_decide_eq_true_2 by done.
  by case_bool_decide.
Qed.

Lemma forward_step s ud u s' :
  conversation (handle_update (mkBot (Some s) ud) u).1 = Some s' →
  s' ∈ forward_targets s →
  step s ud (To s') (user_data (handle_update (mkBot (Some s) ud) u).1).
Proof.
  unfold handle_update, select. cbn [conversation user_data].
  destruct (is_command "start" u).
  { cbn [fst conversation run start ret]. intros [= <-] Hf.
    destruct s; cbn [forward_targets] in Hf;
      repeat (apply elem_of_cons in Hf as [?|Hf]; [done|]);
      by apply elem_of_nil in Hf. }
  destruct (state_filter s u).
  { cbn [fst conversation user_data]. intros Hr _.
    pose proof (run_step s u ud) as H.
    destruct (ret (run (cb_state s) u ud)); [|done]. by injection Hr as ->. }
  assert (s ∉ forward_targets s) as Hs.
  { destruct s; cbn [forward_targets]; intros Hf;
      repeat (apply elem_of_cons in Hf as [?|Hf]; [done|]);
      by apply elem_of_nil in Hf. }
  destruct (is_command "cancel" u); [done|].
  destruct (filters_Regex_cancel u); [done|].
  cbn [fst conversation]. by intros [= <-] Hf.
Qed.

(** In a session of a user who writes to the bot in one chat only, after
    a step forward the Back button returns to the stage the step came
    from. *)
Theorem back_returns_after_forward b u user s s' :
  reachable_alone b → conversation b = Some s →
  conversation (handle_update b u).1 = Some s' → s' ∈ forward_targets s →
  conversation (handle_update (handle_update b u).1 (text_msg user BACK)).1
  = Some s.
Proof.
  intros Hr Hs Hs' Hf.
  pose proof (reachable_pickup_chosen b Hr) as Hp.
  destruct b as [conv ud]. cbn [conversation] in Hs. subst conv.
  pose proof (forward_step s ud u s' Hs' Hf) as Hstep.
  destruct (handle_update (mkBot (Some s) ud) u).1 as [conv' ud'] eqn:Hb'.
  cbn [conversation user_data] in *. subst conv'.
  assert (back_target s' ud' = Some s) as Hbt.
  { destruct s; cbn [forward_targets] in Hf;
      repeat (apply elem_of_cons in Hf as [->|Hf]);
      try (by apply elem_of_nil in Hf); cbn [back_target]; try done.
    - (* delivery to contacts *)
      inversion Hstep; subst; try done.
      rewrite get_setitem, decide_True by done.
      rewrite bool_decide_eq_false_2; [done|].
      intros H. pose proof options_differ. congruence.
    - (* pickup address to contacts *)
      inversion Hstep; subst; try done.
      unfold pickup_chosen in Hp. cbn [conversation user_data] in Hp.
      rewrite get_setitem, decide_False by done.
      by rewrite bool_decide_eq_true_2 by (by apply Hp). }
  rewrite back_step; [done | by rewrite Hbt].
Qed.

(** The pickup option, then Back. *)
Lemma back_returns_after_forward_witness :
  conversation
    (handle_update (handle_update at_delivery (text_msg ann PICKUP)).1
       (text_msg ann BACK)).1
  = Some GET_DELIVERY.
Proof.
  apply (back_returns_after_forward at_delivery (text_msg ann PICKUP) ann
           GET_DELIVERY GET_PICKUP_ADDRESS).
  - exists to_delivery. unfold at_delivery. reflexivity.
  - vm_compute. reflexivity.
  - vm_compute. reflexivity.
  - apply list_elem_of_here.
Defined.

(** The sample listing on the confirmation screen. *)
Lemma reachable_collected_witness : collected CONFIRM (user_data at_confirm).
Proof.
  apply (reachable_collected at_confirm CONFIRM).
  - exists to_confirm. unfold at_confirm. reflexivity.
  - vm_compute. reflexivity.
Defined.

(** The price of the sample listing. *)
Lemma reachable_stored_ok_witness : field_ok "price" (py "500").
Proof.
  apply (reachable_stored_ok at_confirm "price" (py "500")).
  - apply reachable_alone_reachable. exists to_confirm. unfold at_confirm.
    reflexivity.
  - vm_compute. reflexivity.
Defined.

(** The photos of the sample listing. *)
Lemma reachable_photos_distinct_witness : NoDup [py "A"].
Proof.
  apply (reachable_photos_distinct at_confirm [py "A"]).
  - apply reachable_alone_reachable. exists to_confirm. unfold at_confirm.
    reflexivity.
  - vm_compute. reflexivity.
Defined.

(** ** Accepted inputs *)

Lemma valid_text_nonempty t lo hi : 0 < lo → validate_text t lo hi = true → t ≠ [].
Proof.
  intros Hlo H ->. revert H. unfold validate_text.
  change (len (strip [])) with 0.
  rewrite andb_true_iff, N.leb_le. lia.
Qed.

Lemma advance_start b user :
  (handle_update b (command_msg user "start")).1
  = mkBot (Some CHOOSE_CATEGORY) clear.
Proof. unfold handle_update, select. by destruct b as [[s|] ud]. Qed.

Lemma advance_category ud user t :
  t ≠ [] → t ≠ CANCEL →
  (handle_update (mkBot (Some CHOOSE_CATEGORY) ud) (text_msg user t)).1
  = mkBot (Some GET_ITEM_NAME) (setitem "category" t ud).
Proof.
  intros Hne Hc. text_step. unfold handle_category.
  by rewrite bool_decide_eq_false_2.
Qed.

Lemma advance_item_name ud user t :
  plain t → validate_text t default_min_len default_max_len = true →
  (handle_update (mkBot (Some GET_ITEM_NAME) ud) (text_msg user t)).1
  = mkBot (Some GET_PHOTOS)
      (set_photos []
         (setitem "user_name" (user_name_of user) (setitem "item_name" t ud))).
Proof.
  intros [Hb Hc] Hv.
  assert (t ≠ []) by (by eapply valid_text_nonempty; [|exact Hv]).
  text_step. unfold handle_item_name.
  rewrite (bool_decide_eq_false_2 (t = BACK)) by done.
  rewrite (bool_decide_eq_false_2 (t = CANCEL)) by done.
  by rewrite Hv.
Qed.

Lemma advance_first_photo ud user file_id :
  photos ud = Some [] →
  (handle_update (mkBot (Some GET_PHOTOS) ud) (photo_msg user file_id)).1
  = mkBot (Some GET_PHOTOS) (set_photos [file_id] ud).
Proof.
  intros Hp. rewrite handle_update_stage by done.
  cbn [run]. unfold handle_photos. cbn [text photo photo_msg last].
  rewrite Hp. cbn [default from_option id photos]. rewrite Hp.
  cbn [default from_option id].
  by rewrite bool_decide_eq_true_2 by apply not_elem_of_nil.
Qed.

Lemma advance_next ud user p ps :
  photos ud = Some (p :: ps) →
  (handle_update (mkBot (Some GET_PHOTOS) ud) (text_msg user NEXT)).1
  = mkBot (Some GET_DESCRIPTION) ud.
Proof.
  intros Hp. text_step. unfold handle_photos. cbn [text text_msg].
  destruct NEXT as [|c t] eqn:Hn; [by vm_compute in Hn|]. rewrite <- Hn.
  rewrite (bool_decide_eq_false_2 (NEXT = BACK)) by (vm_compute; discriminate).
  rewrite (bool_decide_eq_false_2 (NEXT = CANCEL)) by (vm_compute; discriminate).
  rewrite (bool_decide_eq_true_2 (NEXT = NEXT)) by done.
  rewrite Hp. cbn [default from_option id].
  assert ((len (p :: ps) <? 1) = false) as ->; [|done].
  apply N.ltb_ge. unfold len. cbn [length]. lia.
Qed.

Lemma advance_description ud user t :
  plain t → t ≠ NO_INFO → validate_text t 2 500 = true →
  (handle_update (mkBot (Some GET_DESCRIPTION) ud) (text_msg user t)).1
  = mkBot (Some GET_PRICE) (setitem "description" t ud).
Proof.
  intros [Hb Hc] Hn Hv.
  assert (t ≠ []) by (by eapply valid_text_nonempty; [|exact Hv]).
  text_step. unfold handle_description.
  rewrite (bool_decide_eq_false_2 (t = BACK)) by done.
  rewrite (bool_decide_eq_false_2 (t = CANCEL)) by done.
  rewrite (bool_decide_eq_false_2 (t = NO_INFO)) by done.
  by rewrite Hv.
Qed.

Lemma valid_price_is_text t :
  validate_price t = Returns true → t ≠ [] ∧ t ≠ BACK ∧ t ≠ CANCEL.
Proof.
  intros H. repeat split; intros ->; revert H; vm_compute; discriminate.
Qed.

Lemma advance_price ud user t :
  validate_price t = Returns true →
  (handle_update (mkBot (Some GET_PRICE) ud) (text_msg user t)).1
  = mkBot (Some GET_CITY) (setitem "price" t ud).
Proof.
  intros Hv. destruct (valid_price_is_text t Hv) as (Hne & Hb & Hc).
  text_step. unfold handle_price.
  rewrite (bool_decide_eq_false_2 (t = BACK)) by done.
  rewrite (bool_decide_eq_false_2 (t = CANCEL)) by done.
  by rewrite Hv.
Qed.

Lemma advance_city ud user t :
  plain t → validate_text t 2 50 = true →
  (handle_update (mkBot (Some GET_CITY) ud) (text_msg user t)).1
  = mkBot (Some GET_DELIVERY) (setitem "city" t ud).
Proof.
  intros [Hb Hc] Hv.
  assert (t ≠ []) by (by eapply valid_text_nonempty; [|exact Hv]).
  text_step. unfold handle_city.
  rewrite (bool_decide_eq_false_2 (t = BACK)) by done.
  rewrite (bool_decide_eq_false_2 (t = CANCEL)) by done.
  by rewrite Hv.
Qed.

Lemma advance_pickup ud user :
  (handle_update (mkBot (Some GET_DELIVERY) ud) (text_msg user PICKUP)).1
  = mkBot (Some GET_PICKUP_ADDRESS) (setitem "delivery" PICKUP ud).
Proof. vm_compute. reflexivity. Qed.

Lemma advance_pickup_address ud user t :
  plain t → validate_text t 5 200 = true →
  (handle_update (mkBot (Some GET_PICKUP_ADDRESS) ud) (text_msg user t)).1
  = mkBot (Some GET_CONTACTS) (setitem "pickup_address" t ud).
Proof.
  intros [Hb Hc] Hv.
  assert (t ≠ []) by (by eapply valid_text_nonempty; [|exact Hv]).
  text_step. unfold handle_pickup_address.
  rewrite (bool_decide_eq_false_2 (t = BACK)) by done.
  rewrite (bool_decide_eq_false_2 (t = CANCEL)) by done.
  by rewrite Hv.
Qed.

Lemma advance_contacts ud user t :
  present ud ["user_name"; "item_name"; "category"; "price"; "city"; "delivery"]%string →
  validate_phone t = true →
  (handle_update (mkBot (Some GET_CONTACTS) ud) (text_msg user t)).1
  = mkBot (Some CONFIRM) (setitem "contacts" t ud).
Proof.
  intros Hk Hv. destruct (valid_phone_is_text t Hv) as (Hne & Hb & Hca).
  unfold present in Hk. rewrite !Forall_cons in Hk.
  destruct Hk as ([n Hn] & [i Hi] & [c Hc] & [p Hp] & [ci Hci] & [d Hd] & _).
  text_step. unfold handle_contacts.
  rewrite (bool_decide_eq_false_2 (t = BACK)) by done.
  rewrite (bool_decide_eq_false_2 (t = CANCEL)) by done.
  rewrite Hv. cbn [negb].
  rewrite (getitem_setitem_ne _ _ _ "user_name"), (getitem_setitem_ne _ _ _ "item_name"),
    (getitem_setitem_ne _ _ _ "category"), (getitem_setitem_ne _ _ _ "price"),
    (getitem_setitem_ne _ _ _ "city"), (getitem_setitem_ne _ _ _ "delivery") by done.
  rewrite getitem_setitem_eq.
  rewrite (getitem_present _ _ _ Hc), (getitem_present _ _ _ Hi),
    (getitem_present _ _ _ Hn), (getitem_present _ _ _ Hp),
    (getitem_present _ _ _ Hci), (getitem_present _ _ _ Hd).
  done.
Qed.

Lemma admin_message_description ud d :
  get ud "description" = Some d →
  match admin_message ud with
  | Returns m => occurs_in d m
  | Raises _ => True
  end.
Proof.
  intros Hd. unfold admin_message.
  repeat (match goal with
          | |- context [getitem ?u ?k] => destruct (getitem u k); [|done]
          end; cbn [mbind outcome_bind]).
  rewrite Hd. cbn [default from_option id].
  eapply occurs_in_join; [|apply occurs_in_mid].
  apply elem_of_app; left. do 4 apply list_elem_of_further. apply list_elem_of_here.
Qed.

Lemma pickup_listing_session user category name file_id description price city
    address phone :
  category ≠ [] → category ≠ CANCEL →
  plain name → validate_text name default_min_len default_max_len = true →
  plain description → description ≠ NO_INFO →
  validate_text description 2 500 = true →
  validate_price price = Returns true →
  plain city → validate_text city 2 50 = true →
  plain address → validate_text address 5 200 = true →
  validate_phone phone = true →
  (handle_updates initial
     (pickup_listing user category name file_id description price city address
        phone)).1
  = mkBot (Some CONFIRM)
      (setitem "contacts" phone
         (setitem "pickup_address" address
            (setitem "delivery" PICKUP
               (setitem "city" city
                  (setitem "price" price
                     (setitem "description" description
                        (set_photos [file_id]
                           (set_photos []
                              (setitem "user_name" (user_name_of user)
                                 (setitem "item_name" name
                                    (setitem "category" category clear))))))))))).
Proof.
  intros. unfold pickup_listing.
  rewrite handle_updates_cons, advance_start.
  rewrite handle_updates_cons, advance_category by done.
  rewrite handle_updates_cons, advance_item_name by done.
  rewrite handle_updates_cons, advance_first_photo by done.
  rewrite handle_updates_cons, (advance_next _ _ file_id []) by done.
  rewrite handle_updates_cons, advance_description by done.
  rewrite handle_updates_cons, advance_price by done.
  rewrite handle_updates_cons, advance_city by done.
  rewrite handle_updates_cons, advance_pickup.
  rewrite handle_updates_cons, advance_pickup_address by done.
  rewrite handle_updates_cons, advance_contacts; [done| |done].
  unfold present. repeat apply Forall_cons_2; try apply Forall_nil_2;
    vm_compute; by eexists.
Qed.

(** A whole listing with pickup, for any inputs the stages accept: the
    eleven updates lead to the confirmation screen, and the submit button
    then sends the administrator one submission with the one photo and a
    text that shows every input, and leaves an empty session. *)
Theorem pickup_listing_is_submitted user category name file_id description price
    city address phone :
  category ≠ [] → category ≠ CANCEL →
  plain name → validate_text name default_min_len default_max_len = true →
  plain description → description ≠ NO_INFO →
  validate_text description 2 500 = true →
  validate_price price = Returns true →
  plain city → validate_text city 2 50 = true →
  plain address → validate_text address 5 200 = true →
  validate_phone phone = true →
  ∃ b sub,
    (handle_updates initial
       (pickup_listing user category name file_id description price city
          address phone)).1 = b
    ∧ conversation b = Some CONFIRM
    ∧ (handle_update b (text_msg user SUBMIT)).1 = initial
    ∧ dispatched (handle_update b (text_msg user SUBMIT)).2 = [sub]
    ∧ imageRefs sub = [file_id]
    ∧ Forall (λ v, occurs_in v (summaryText sub))
        [name; category; description; price; city; PICKUP; address; phone].
Proof.
  intros.
  pose proof (pickup_listing_session user category name file_id description
                price city address phone) as Hs.
  match type of Hs with context [mkBot (Some CONFIRM) ?u] => set (ud := u) in * end.
  assert (missing_fields ud = []) as Hm by (vm_compute; reflexivity).
  assert (is_Some (get ud "user_name")) as Hu by (vm_compute; by eexists).
  destruct (admin_message_present ud Hm Hu) as (m & Hmsg & Hreq & Hpick).
  exists (mkBot (Some CONFIRM) ud),
    (mkSubmission m (take 10 (default [] (photos ud))) ADMIN_CHAT_ID).
  split; [by apply Hs|]. split; [done|].
  rewrite submit_step, confirm_application_submit, Hm, Hmsg.
  cbn [mbind outcome_bind try_except out data ret fst snd].
  rewrite dispatched_submission.
  split; [done|]. split; [reflexivity|]. split; [reflexivity|].
  cbn [summaryText].
  assert (∀ key v, key ∈ required_fields → get ud key = Some v → occurs_in v m)
    as Hocc.
  { intros key v Hk Hv. destruct (Hreq key Hk) as (v' & Hv' & Ho).
    rewrite Hv in Hv'. by injection Hv' as <-. }
  repeat apply Forall_cons_2; try apply Forall_nil_2.
  - apply (Hocc "item_name"); [|vm_compute; reflexivity].
    unfold required_fields. apply list_elem_of_here.
  - apply (Hocc "category"); [|vm_compute; reflexivity].
    unfold required_fields. do 1 apply list_elem_of_further. apply list_elem_of_here.
  - pose proof (admin_message_description ud description) as Hd.
    rewrite Hmsg in Hd. apply Hd. vm_compute. reflexivity.
  - apply (Hocc "price"); [|vm_compute; reflexivity].
    unfold required_fields. do 2 apply list_elem_of_further. apply list_elem_of_here.
  - apply (Hocc "city"); [|vm_compute; reflexivity].
    unfold required_fields. do 3 apply list_elem_of_further. apply list_elem_of_here.
  - apply (Hocc "delivery"); [|vm_compute; reflexivity].
    unfold required_fields. do 4 apply list_elem_of_further. apply list_elem_of_here.
  - apply Hpick. vm_compute. reflexivity.
  - apply (Hocc "contacts"); [|vm_compute; reflexivity].
    unfold required_fields. do 5 apply list_elem_of_further. apply list_elem_of_here.
Qed.

(** The listing of an old ruble. *)
Lemma pickup_listing_is_submitted_witness :
  ∃ b sub,
    (handle_updates initial
       (pickup_listing ann (py "Coins") (py "Old Ruble") (py "A")
          (py "An old coin") (py "500") (py "Town") (py "1 Main St")
          (py "+79161234567"))).1 = b
    ∧ conversation b = Some CONFIRM
    ∧ (handle_update b (text_msg ann SUBMIT)).1 = initial
    ∧ dispatched (handle_update b (text_msg ann SUBMIT)).2 = [sub]
    ∧ imageRefs sub = [py "A"]
    ∧ Forall (λ v, occurs_in v (summaryText sub))
        [py "Old Ruble"; py "Coins"; py "An old coin"; py "500"; py "Town";
         PICKUP; py "1 Main St"; py "+79161234567"].
Proof.
  apply (pickup_listing_is_submitted ann (py "Coins") (py "Old Ruble") (py "A")
           (py "An old coin") (py "500") (py "Town") (py "1 Main St")
           (py "+79161234567"));
    try (vm_compute; discriminate); try (vm_compute; reflexivity);
    split; vm_compute; discriminate.
Defined.

(** ** Prices, digit by digit *)

Lemma fold_digits_positive s : ∀ acc,
  all_decimal s →
  0 < fold_left (λ a c, 10 * a + default 0 (decimal_value c)) s acc
  ↔ 0 < acc ∨ ∃ c, c ∈ s ∧ decimal_value c ≠ Some 0.
Proof.
  induction s as [|c r IH]; intros acc Hs.
  - cbn [fold_left]. split; [by left|].
    intros [?|(c & Hc & _)]; [done | by apply elem_of_nil in Hc].
  - apply Forall_cons in Hs as [[d Hd] Hr]. cbn [fold_left].
    rewrite (IH _ Hr), Hd. cbn [default from_option id]. split.
    + intros [Hpos|(c' & Hc' & Hn)].
      * destruct (decide (d = 0)) as [->|Hnz]; [left; lia|].
        right. exists c. split; [apply list_elem_of_here|]. rewrite Hd. congruence.
      * right. exists c'. split; [by apply list_elem_of_further | done].
    + intros [Hpos|(c' & Hc' & Hn)]; [left; lia|].
      apply elem_of_cons in Hc' as [->|Hc'].
      * left. rewrite Hd in Hn. assert (d ≠ 0) by congruence. lia.
      * right. by exists c'.
Qed.

(** A price is accepted exactly when it is made of decimal digits that
    are not all zeros, and of no more of them than [int] reads. *)
Theorem validate_price_not_all_zeros s :
  validate_price s = Returns true
  ↔ all_decimal s
    ∧ (∃ c, c ∈ s ∧ decimal_value c ≠ Some 0)
    ∧ len s ≤ int_max_str_digits.
Proof.
  rewrite validate_price_returns_true. unfold decimal_number.
  split; intros (Hs & H & Hl); (split; [done|]); (split; [|done]).
  - apply fold_digits_positive in H as [?|?]; [lia | done | done].
  - apply fold_digits_positive; [done | by right].
Qed.

(** ** A second chat *)

